(** * TwitterBot.py: a shallow embedding of the follower-cache bot

    The Python class [TwitterBot] keeps three snapshot files of user
    identifiers (followers, follows, already followed), refreshes them from
    the paginated Twitter API and runs bulk follow / unfollow / mute actions
    computed from them.

    The embedding keeps the structure of the source:
    - a [World] holds the bot's [BOT_CONFIG] dictionary, whether
      [TWITTER_CONNECTION] was created, the local files (path -> content),
      the log of remote calls issued and the printed lines;
    - the remote API is a function from calls to responses (the remote state
      is fixed during a run); an error response is raised as
      [TwitterHTTPError];
    - Python exceptions are the [Exn] type, [quit()] raises [SystemExit];
    - a Python [set] of identifiers is a duplicate-free list whose order is
      the iteration order; it is built by [py_set], a fixed deterministic
      function of the inserted elements, as CPython's set of ints is. *)

From Stdlib Require Import ZArith String Ascii DecimalZ.
From stdpp Require Import base gmap strings list.

Open Scope string_scope.

(* stdpp makes [String.append] opaque to [simpl]; the proofs compute with it *)
#[local] Arguments String.append : simpl nomatch.

(* ------------------------------------------------------------------ *)
(** ** Python string helpers *)

Definition is_space (c : ascii) : bool :=
  match c with
  | " "%char | "009"%char | "010"%char | "011"%char | "012"%char | "013"%char => true
  | _ => false
  end.

(** [str.lstrip()] *)
Fixpoint lstrip (s : string) : string :=
  match s with
  | EmptyString => EmptyString
  | String c s' => if is_space c then lstrip s' else s
  end.

Fixpoint string_rev_app (s acc : string) : string :=
  match s with
  | EmptyString => acc
  | String c s' => string_rev_app s' (String c acc)
  end.

Definition string_rev (s : string) : string := string_rev_app s EmptyString.

(** [str.rstrip()] and [str.strip()] *)
Definition rstrip (s : string) : string := string_rev (lstrip (string_rev s)).

Definition strip (s : string) : string := rstrip (lstrip s).

(** [str.lower()] on ASCII text *)
Definition lower_char (c : ascii) : ascii :=
  let n := nat_of_ascii c in
  if (65 <=? n)%nat && (n <=? 90)%nat then ascii_of_nat (n + 32) else c.

Fixpoint lower (s : string) : string :=
  match s with
  | EmptyString => EmptyString
  | String c s' => String (lower_char c) (lower s')
  end.

Fixpoint is_prefix (p s : string) : bool :=
  match p, s with
  | EmptyString, _ => true
  | String a p', String b s' => Ascii.eqb a b && is_prefix p' s'
  | String _ _, EmptyString => false
  end.

(** [p in s] for strings *)
Fixpoint contains (p s : string) : bool :=
  is_prefix p s ||
  match s with
  | EmptyString => false
  | String _ s' => contains p s'
  end.

(** [s.split(sep)] for a one-character separator *)
Fixpoint split_on (sep : ascii) (s : string) : list string :=
  match s with
  | EmptyString => [EmptyString]
  | String c s' =>
      if Ascii.eqb c sep then EmptyString :: split_on sep s'
      else match split_on sep s' with
           | [] => [String c EmptyString]
           | w :: ws => String c w :: ws
           end
  end.

(** Iterating over a file object: the lines, each keeping its ["\n"]. *)
Fixpoint file_lines_aux (cur s : string) : list string :=
  match s with
  | EmptyString => match cur with EmptyString => [] | _ => [string_rev cur] end
  | String c s' =>
      if Ascii.eqb c "010"%char then string_rev (String c cur) :: file_lines_aux EmptyString s'
      else file_lines_aux (String c cur) s'
  end.

Definition file_lines (s : string) : list string := file_lines_aux EmptyString s.

Definition newline : string := String "010"%char EmptyString.

(* ------------------------------------------------------------------ *)
(** ** Decimal integers: ["%s" % n], [str(n)] and [int(line)] *)

Fixpoint uint_to_string (u : Decimal.uint) : string :=
  match u with
  | Decimal.Nil => EmptyString
  | Decimal.D0 u => String "0" (uint_to_string u)
  | Decimal.D1 u => String "1" (uint_to_string u)
  | Decimal.D2 u => String "2" (uint_to_string u)
  | Decimal.D3 u => String "3" (uint_to_string u)
  | Decimal.D4 u => String "4" (uint_to_string u)
  | Decimal.D5 u => String "5" (uint_to_string u)
  | Decimal.D6 u => String "6" (uint_to_string u)
  | Decimal.D7 u => String "7" (uint_to_string u)
  | Decimal.D8 u => String "8" (uint_to_string u)
  | Decimal.D9 u => String "9" (uint_to_string u)
  end.

(** [str(n)] of a Python integer *)
Definition py_str (z : Z) : string :=
  match Z.to_int z with
  | Decimal.Pos u => uint_to_string u
  | Decimal.Neg u => String "-" (uint_to_string u)
  end.

Definition digit_of (c : ascii) : option (Decimal.uint -> Decimal.uint) :=
  match c with
  | "0"%char => Some Decimal.D0 | "1"%char => Some Decimal.D1
  | "2"%char => Some Decimal.D2 | "3"%char => Some Decimal.D3
  | "4"%char => Some Decimal.D4 | "5"%char => Some Decimal.D5
  | "6"%char => Some Decimal.D6 | "7"%char => Some Decimal.D7
  | "8"%char => Some Decimal.D8 | "9"%char => Some Decimal.D9
  | _ => None
  end.

Fixpoint string_to_uint (s : string) : option Decimal.uint :=
  match s with
  | EmptyString => Some Decimal.Nil
  | String c s' =>
      match digit_of c, string_to_uint s' with
      | Some d, Some u => Some (d u)
      | _, _ => None
      end
  end.

(** a non-empty run of decimal digits *)
Definition digits_to_uint (s : string) : option Decimal.uint :=
  match s with
  | EmptyString => None
  | _ => string_to_uint s
  end.

(** Python 2 [int(s)] on a string: surrounding whitespace, an optional
    sign, then decimal digits; anything else raises [ValueError]
    ([None] here). *)
Definition py_int (s : string) : option Z :=
  match strip s with
  | String "-" t => option_map (fun u => Z.of_int (Decimal.Neg u)) (digits_to_uint t)
  | String "+" t => option_map (fun u => Z.of_int (Decimal.Pos u)) (digits_to_uint t)
  | t => option_map (fun u => Z.of_int (Decimal.Pos u)) (digits_to_uint t)
  end.

(** [set(l)] on a list of ints *)
Definition py_set (l : list Z) : list Z := List.nodup Z.eq_dec l.

Definition py_mem (x : Z) (s : list Z) : bool := existsb (Z.eqb x) s.

(** [a - b] on sets *)
Definition py_diff (a b : list Z) : list Z := List.filter (fun x => negb (py_mem x b)) a.

(* ------------------------------------------------------------------ *)
(** ** The remote API, the world and the effect monad *)

Inductive Endpoint := EFollowers | EFriends | EMutes.

(** a tweet record [{id, text, user: {id, screen_name}}] *)
Record Tweet := mkTweet {
  tweet_id : Z;
  tweet_text : string;
  user_id : Z;
  user_screen_name : string
}.

(** the calls the bot makes on [self.TWITTER_CONNECTION] *)
Inductive Call :=
| CIds (ep : Endpoint) (screen_name : string) (cursor : option Z)
    (* followers.ids / friends.ids / mutes.users.ids *)
| CSearch (q : string) (count : Z) (result_type : string)
| CFavCreate (id : Z)
| CRetweet (id : Z)
| CFriendCreate (uid : Z)   (* friendships.create(user_id=uid, follow=False) *)
| CFriendDestroy (uid : Z)  (* friendships.destroy(user_id=uid) *)
| CMuteCreate (uid : Z)
| CMuteDestroy (uid : Z).

Inductive Resp :=
| RIds (ids : list Z) (next_cursor : Z)
| RStatuses (statuses : list Tweet)
| RText (text : string)
| RDone
| RErr (msg : string).   (* raised as TwitterHTTPError *)

Definition Remote := Call -> Resp.

Record World := mkWorld {
  cfg : gmap string string;      (* self.BOT_CONFIG *)
  conn : bool;                   (* self.TWITTER_CONNECTION is not None *)
  files : gmap string string;    (* local files: path -> content *)
  calls : list Call;             (* remote calls issued, in order *)
  out : list string              (* printed lines *)
}.

Definition with_cfg c w := mkWorld c (conn w) (files w) (calls w) (out w).
Definition with_conn b w := mkWorld (cfg w) b (files w) (calls w) (out w).
Definition with_files f w := mkWorld (cfg w) (conn w) f (calls w) (out w).
Definition with_calls l w := mkWorld (cfg w) (conn w) (files w) l (out w).
Definition with_out o w := mkWorld (cfg w) (conn w) (files w) (calls w) o.

Inductive Exn :=
| HTTPError (msg : string)     (* TwitterHTTPError *)
| IOError (path : string)
| ValueError (s : string)
| KeyError (k : string)
| IndexError
| TypeError
| AttributeError
| SystemExit                   (* quit() *)
| Diverge.                     (* a while loop ran out of fuel *)

Definition exn_str (e : Exn) : string :=
  match e with
  | HTTPError m => m
  | IOError p => p
  | ValueError s => s
  | KeyError k => k
  | _ => EmptyString
  end.

Inductive Res (A : Type) := Ok (a : A) | Exc (e : Exn).
Arguments Ok {A} a.
Arguments Exc {A} e.

Definition M (A : Type) : Type := Remote -> World -> World * Res A.

Definition ret {A} (a : A) : M A := fun _ w => (w, Ok a).
Definition raise {A} (e : Exn) : M A := fun _ w => (w, Exc e).
Definition bind {A B} (m : M A) (k : A -> M B) : M B :=
  fun r w =>
    match m r w with
    | (w', Ok a) => k a r w'
    | (w', Exc e) => (w', Exc e)
    end.

Declare Scope py_scope.
Notation "'do' x <- m ; k" := (bind m (fun x => k))
  (at level 200, x name, m at level 100, k at level 200) : py_scope.
Notation "'do' ' p <- m ; k" := (bind m (fun x => match x with p => k end))
  (at level 200, p pattern, m at level 100, k at level 200) : py_scope.
Open Scope py_scope.

(** [try: body except E: handler] *)
Definition mtry {A} (body : M A) (handler : Exn -> M A) : M A :=
  fun r w =>
    match body r w with
    | (w', Exc e) => handler e r w'
    | res => res
    end.

(** [except TwitterHTTPError as e] *)
Definition except_http {A} (body : M A) (handler : string -> M A) : M A :=
  mtry body (fun e => match e with HTTPError m => handler m | e => raise e end).

(** [except Exception as e]: everything but [SystemExit] *)
Definition except_exception {A} (body : M A) (handler : Exn -> M A) : M A :=
  mtry body (fun e => match e with SystemExit => raise SystemExit | e => handler e end).

(** [for x in l: body(x)] *)
Fixpoint mfor {A} (l : list A) (body : A -> M unit) : M unit :=
  match l with
  | [] => ret tt
  | x :: l' => do _ <- body x; mfor l' body
  end.

Definition get_cfg : M (gmap string string) := fun _ w => (w, Ok (cfg w)).
Definition set_cfg (c : gmap string string) : M unit := fun _ w => (with_cfg c w, Ok tt).
Definition set_conn (b : bool) : M unit := fun _ w => (with_conn b w, Ok tt).

(** [self.BOT_CONFIG[k]] *)
Definition cfg_get (k : string) : M string :=
  fun _ w =>
    match cfg w !! k with
    | Some v => (w, Ok v)
    | None => (w, Exc (KeyError k))
    end.

(** [self.BOT_CONFIG[k] = v] *)
Definition cfg_set (k v : string) : M unit :=
  fun _ w => (with_cfg (<[k := v]> (cfg w)) w, Ok tt).

Definition print (s : string) : M unit :=
  fun _ w => (with_out (out w ++ [s]) w, Ok tt).

(** a call on [self.TWITTER_CONNECTION]; an error answer raises *)
Definition remote_call (c : Call) : M Resp :=
  fun r w =>
    if conn w then
      let w' := with_calls (calls w ++ [c]) w in
      match r c with
      | RErr m => (w', Exc (HTTPError m))
      | resp => (w', Ok resp)
      end
    else (w, Exc AttributeError).

(** [open(p, "rb").read()] *)
Definition read_file (p : string) : M string :=
  fun _ w =>
    match files w !! p with
    | Some s => (w, Ok s)
    | None => (w, Exc (IOError p))
    end.

(** [open(p, "wb")] truncates, [open(p, "ab")] creates if missing *)
Definition open_wb (p : string) : M unit :=
  fun _ w => (with_files (<[p := EmptyString]> (files w)) w, Ok tt).

Definition open_ab (p : string) : M unit :=
  fun _ w => (with_files (<[p := default EmptyString (files w !! p)]> (files w)) w, Ok tt).

(** [out_file.write(s)] on a file open for writing *)
Definition fwrite (p s : string) : M unit :=
  fun _ w => (with_files (<[p := default EmptyString (files w !! p) +:+ s]> (files w)) w, Ok tt).

Definition isfile (p : string) : M bool :=
  fun _ w => (w, Ok (match files w !! p with Some _ => true | None => false end)).

(* ------------------------------------------------------------------ *)
(** ** The methods of [TwitterBot] *)

(** Python values the public methods return. *)
Inductive PyVal :=
| VNone
| VSet (s : list Z)
| VResp (r : Resp).

Definition not_set_up_msg : string :=
  "The bot has not been set up yet. Please run bot_setup() first.".

(** [if self.BOT_CONFIG == {}: print(...); return] followed by the body *)
Definition when_set_up (body : M PyVal) : M PyVal :=
  do c <- get_cfg;
  if bool_decide (c = ∅) then (do _ <- print not_set_up_msg; ret VNone) else body.

(** using a returned set ([None] would raise a [TypeError]) *)
Definition as_set (v : PyVal) : M (list Z) :=
  match v with VSet s => ret s | _ => raise TypeError end.

(** [result["statuses"]], [status["ids"]], [result["text"]] *)
Definition statuses_of (v : PyVal) : M (list Tweet) :=
  match v with
  | VResp (RStatuses ts) => ret ts
  | VNone => raise TypeError
  | _ => raise (KeyError "statuses")
  end.

Definition ids_of (resp : Resp) : M (list Z) :=
  match resp with RIds ids _ => ret ids | _ => raise (KeyError "ids") end.

Definition text_of (resp : Resp) : M string :=
  match resp with RText t => ret t | _ => raise (KeyError "text") end.

(** [for line in in_file: l.append(int(line))] *)
Fixpoint parse_lines (ls : list string) : M (list Z) :=
  match ls with
  | [] => ret []
  | l :: ls' =>
      match py_int l with
      | None => raise (ValueError l)
      | Some z => do zs <- parse_lines ls'; ret (z :: zs)
      end
  end.

(** the body shared by the three [get_*_list] methods *)
Definition read_id_file (key : string) : M (list Z) :=
  do p <- cfg_get key;
  do s <- read_file p;
  do l <- parse_lines (file_lines s);
  ret (py_set l).

Definition get_do_not_follow_list : M PyVal :=
  when_set_up (do s <- read_id_file "ALREADY_FOLLOWED_FILE"; ret (VSet s)).

Definition get_followers_list : M PyVal :=
  when_set_up (do s <- read_id_file "FOLLOWERS_FILE"; ret (VSet s)).

Definition get_follows_list : M PyVal :=
  when_set_up (do s <- read_id_file "FOLLOWS_FILE"; ret (VSet s)).

(** [for x in ids: out_file.write("%s\n" % (x))] *)
Definition write_ids (p : string) (ids : list Z) : M unit :=
  mfor ids (fun x => fwrite p (py_str x +:+ newline)).

(** [self.TWITTER_CONNECTION.<ep>.ids(screen_name=h[, cursor=c])],
    then [status["ids"]] and [status["next_cursor"]] *)
Definition list_ids (ep : Endpoint) (h : string) (cursor : option Z) : M (list Z * Z) :=
  do resp <- remote_call (CIds ep h cursor);
  match resp with
  | RIds ids nc => ret (ids, nc)
  | _ => raise (KeyError "ids")
  end.

(** [while next_cursor != 0: ...] appending each page to the file *)
Fixpoint sync_pages (ep : Endpoint) (key : string) (fuel : nat) (next_cursor : Z) : M unit :=
  if Z.eqb next_cursor 0 then ret tt else
  match fuel with
  | O => raise Diverge
  | S fuel' =>
      do h <- cfg_get "TWITTER_HANDLE";
      do ' (ids, nc) <- list_ids ep h (Some next_cursor);
      do p <- cfg_get key;
      do _ <- open_ab p;
      do _ <- write_ids p (py_set ids);
      sync_pages ep key fuel' nc
  end.

(** [with open(self.BOT_CONFIG[key], "wb") as out_file: for x in ids: ...]:
    the snapshot file of [key] replaced by the identifiers [ids] *)
Definition replace_ids (key : string) (ids : list Z) : M unit :=
  do p <- cfg_get key;
  do _ <- open_wb p;
  write_ids p ids.

(** one half of [sync_follows]: the first page replaces the file, the
    following pages are appended *)
Definition sync_role (ep : Endpoint) (key : string) (fuel : nat) : M unit :=
  do h <- cfg_get "TWITTER_HANDLE";
  do ' (ids, nc) <- list_ids ep h None;
  do _ <- replace_ids key (py_set ids);
  sync_pages ep key fuel nc.

Definition sync_follows (fuel : nat) : M PyVal :=
  when_set_up (
    do _ <- sync_role EFollowers "FOLLOWERS_FILE" fuel;
    do _ <- sync_role EFriends "FOLLOWS_FILE" fuel;
    ret VNone).

Definition search_tweets (q : string) (count : Z) (result_type : string) : M PyVal :=
  when_set_up (
    do resp <- remote_call (CSearch q count result_type);
    ret (VResp resp)).

Definition auto_fav (q : string) (count : Z) (result_type : string) : M PyVal :=
  when_set_up (
    do result <- search_tweets q count result_type;
    do ts <- statuses_of result;
    do _ <- mfor ts (fun tweet =>
      except_http
        (do h <- cfg_get "TWITTER_HANDLE";
         if String.eqb (user_screen_name tweet) h then ret tt else
         do resp <- remote_call (CFavCreate (tweet_id tweet));
         do txt <- text_of resp;
         print ("favorited: " +:+ txt))
        (fun m =>
           if negb (contains "you have already favorited this status" (lower m))
           then print ("error: " +:+ m) else ret tt));
    ret VNone).

Definition auto_rt (q : string) (count : Z) (result_type : string) : M PyVal :=
  when_set_up (
    do result <- search_tweets q count result_type;
    do ts <- statuses_of result;
    do _ <- mfor ts (fun tweet =>
      except_http
        (do h <- cfg_get "TWITTER_HANDLE";
         if String.eqb (user_screen_name tweet) h then ret tt else
         do resp <- remote_call (CRetweet (tweet_id tweet));
         do txt <- text_of resp;
         print ("retweeted: " +:+ txt))
        (fun m => print ("error: " +:+ m)));
    ret VNone).

(** the [try] block of [auto_follow]'s loop; it returns the (updated)
    [following] set *)
Definition follow_body (do_not_follow following : list Z) (tweet : Tweet) : M (list Z) :=
  do h <- cfg_get "TWITTER_HANDLE";
  if negb (String.eqb (user_screen_name tweet) h) &&
     negb (py_mem (user_id tweet) following) &&
     negb (py_mem (user_id tweet) do_not_follow)
  then
    do _ <- remote_call (CFriendCreate (user_id tweet));
    let following' := py_set (following ++ [user_id tweet]) in
    do _ <- print ("followed " +:+ user_screen_name tweet);
    ret following'
  else ret following.

(** the [except TwitterHTTPError] block of [auto_follow]'s loop *)
Definition follow_handler (following : list Z) (m : string) : M (list Z) :=
  do _ <- print ("error: " +:+ m);
  if negb (contains "blocked" (lower m)) then raise SystemExit else ret following.

(** [for tweet in result["statuses"]: try ... except ...] *)
Fixpoint auto_follow_loop (do_not_follow following : list Z) (ts : list Tweet) : M unit :=
  match ts with
  | [] => ret tt
  | tweet :: ts' =>
      do following' <- except_http (follow_body do_not_follow following tweet)
                                   (follow_handler following);
      auto_follow_loop do_not_follow following' ts'
  end.

Definition auto_follow (q : string) (count : Z) (result_type : string) : M PyVal :=
  when_set_up (
    do result <- search_tweets q count result_type;
    do following <- get_follows_list; do following <- as_set following;
    do do_not_follow <- get_do_not_follow_list; do do_not_follow <- as_set do_not_follow;
    do ts <- statuses_of result;
    do _ <- auto_follow_loop do_not_follow following ts;
    ret VNone).

Definition auto_follow_followers : M PyVal :=
  when_set_up (
    do following <- get_follows_list; do following <- as_set following;
    do followers <- get_followers_list; do followers <- as_set followers;
    let not_following_back := py_diff followers following in
    do _ <- mfor not_following_back (fun uid =>
      except_exception
        (do _ <- remote_call (CFriendCreate uid); ret tt)
        (fun e => print ("error: " +:+ exn_str e)));
    ret VNone).

(** [l[:count]] *)
Definition py_slice_to {A} (l : list A) (count : Z) : list A :=
  if Z.leb 0 count then firstn (Z.to_nat count) l
  else firstn (length l - Z.to_nat (- count)) l.

Definition auto_follow_followers_of_user (user_screen_name : string) (count : Z) : M PyVal :=
  when_set_up (
    do following <- get_follows_list; do following <- as_set following;
    do resp <- remote_call (CIds EFollowers user_screen_name None);
    do ids <- ids_of resp;
    let followers_of_user := py_set (py_slice_to ids count) in
    do do_not_follow <- get_do_not_follow_list; do do_not_follow <- as_set do_not_follow;
    do _ <- mfor followers_of_user (fun uid =>
      except_http
        (if negb (py_mem uid following) && negb (py_mem uid do_not_follow) then
           do _ <- remote_call (CFriendCreate uid);
           print ("followed " +:+ py_str uid)
         else ret tt)
        (fun m => print ("error: " +:+ m)));
    ret VNone).

(** the destroy loop of [auto_unfollow_nonfollowers] *)
Definition unfollow_loop (users_keep_following not_following_back : list Z) : M unit :=
  mfor not_following_back (fun uid =>
    if negb (py_mem uid users_keep_following) then
      do _ <- remote_call (CFriendDestroy uid);
      print ("unfollowed " +:+ py_str uid)
    else ret tt).

(** [auto_unfollow_nonfollowers], with its [users_keep_following] set
    literal as a parameter: the source comment asks users to put the
    identifiers to keep there. *)
Definition auto_unfollow_nonfollowers_keep (users_keep_following : list Z) : M PyVal :=
  when_set_up (
    do following <- get_follows_list; do following <- as_set following;
    do followers <- get_followers_list; do followers <- as_set followers;
    let not_following_back := py_diff following followers in
    do p <- cfg_get "ALREADY_FOLLOWED_FILE";
    do s <- read_file p;
    do already_followed_list <- parse_lines (file_lines s);
    let already_followed := py_set (py_set not_following_back ++ py_set already_followed_list) in
    do p' <- cfg_get "ALREADY_FOLLOWED_FILE";
    do _ <- open_wb p';
    do _ <- write_ids p' already_followed;
    do _ <- unfollow_loop users_keep_following not_following_back;
    ret VNone).

(** the method as shipped: [users_keep_following = set([])] *)
Definition auto_unfollow_nonfollowers : M PyVal :=
  auto_unfollow_nonfollowers_keep (py_set []).

Definition auto_mute_following_keep (users_keep_unmuted : list Z) : M PyVal :=
  when_set_up (
    do following <- get_follows_list; do following <- as_set following;
    do h <- cfg_get "TWITTER_HANDLE";
    do resp <- remote_call (CIds EMutes h None);
    do ids <- ids_of resp;
    let muted := py_set ids in
    let not_muted := py_diff following muted in
    do _ <- mfor not_muted (fun uid =>
      if negb (py_mem uid users_keep_unmuted) then
        do _ <- remote_call (CMuteCreate uid);
        print ("muted " +:+ py_str uid)
      else ret tt);
    ret VNone).

Definition auto_mute_following : M PyVal := auto_mute_following_keep (py_set []).

Definition auto_unmute_keep (users_keep_muted : list Z) : M PyVal :=
  when_set_up (
    do h <- cfg_get "TWITTER_HANDLE";
    do resp <- remote_call (CIds EMutes h None);
    do ids <- ids_of resp;
    let muted := py_set ids in
    do _ <- mfor muted (fun uid =>
      if negb (py_mem uid users_keep_muted) then
        do _ <- remote_call (CMuteDestroy uid);
        print ("unmuted " +:+ py_str uid)
      else ret tt);
    ret VNone).

Definition auto_unmute : M PyVal := auto_unmute_keep (py_set []).

(** [bot_setup]: the configuration lines [parameter:value] *)
Fixpoint read_config_lines (ls : list string) : M unit :=
  match ls with
  | [] => ret tt
  | line :: ls' =>
      match split_on ":" line with
      | parameter :: value :: _ =>
          do _ <- cfg_set (strip parameter) (strip value);
          read_config_lines ls'
      | _ => raise IndexError
      end
  end.

Definition required_parameters : list string :=
  ["OAUTH_TOKEN"; "OAUTH_SECRET"; "CONSUMER_KEY"; "CONSUMER_SECRET";
   "TWITTER_HANDLE"; "ALREADY_FOLLOWED_FILE"; "FOLLOWERS_FILE"; "FOLLOWS_FILE"].

(** [required_parameter not in self.BOT_CONFIG or self.BOT_CONFIG[required_parameter] == ""] *)
Definition param_missing (c : gmap string string) (k : string) : bool :=
  match c !! k with
  | None => true
  | Some v => String.eqb v ""
  end.

(** The staleness warning compares file times with the clock; it only
    prints and is not modelled. *)
Definition bot_setup (config_file : string) : M unit :=
  do s <- read_file config_file;
  do _ <- read_config_lines (file_lines s);
  do c <- get_cfg;
  let missing := List.filter (param_missing c) required_parameters in
  do _ <- mfor missing (fun k => print ("Missing config parameter: " +:+ k));
  if negb (bool_decide (missing = [])) then
    do _ <- print ("Please edit " +:+ config_file +:+ " to include the parameters listed above and run bot_setup() again.");
    set_cfg ∅
  else
    do _ <- mfor ["ALREADY_FOLLOWED_FILE"; "FOLLOWS_FILE"; "FOLLOWERS_FILE"] (fun k =>
      do sync_file <- cfg_get k;
      do b <- isfile sync_file;
      if b then ret tt else (do _ <- open_wb sync_file; fwrite sync_file ""));
    set_conn true.

(** [__init__]: [BOT_CONFIG = {}] and [TWITTER_CONNECTION = None], then
    [bot_setup(config_file)] *)
Definition bot_init (config_file : string) : M unit :=
  do _ <- set_cfg ∅;
  do _ <- set_conn false;
  bot_setup config_file.

(** The public methods other than [bot_setup]. *)
Inductive Op :=
| OpSync (fuel : nat)
| OpGetDoNotFollow
| OpGetFollowers
| OpGetFollows
| OpSearch (q : string) (count : Z) (result_type : string)
| OpFav (q : string) (count : Z) (result_type : string)
| OpRt (q : string) (count : Z) (result_type : string)
| OpFollow (q : string) (count : Z) (result_type : string)
| OpFollowFollowers
| OpFollowFollowersOf (user_screen_name : string) (count : Z)
| OpUnfollow
| OpMute
| OpUnmute.

Definition run_op (op : Op) : M PyVal :=
  match op with
  | OpSync fuel => sync_follows fuel
  | OpGetDoNotFollow => get_do_not_follow_list
  | OpGetFollowers => get_followers_list
  | OpGetFollows => get_follows_list
  | OpSearch q c t => search_tweets q c t
  | OpFav q c t => auto_fav q c t
  | OpRt q c t => auto_rt q c t
  | OpFollow q c t => auto_follow q c t
  | OpFollowFollowers => auto_follow_followers
  | OpFollowFollowersOf u c => auto_follow_followers_of_user u c
  | OpUnfollow => auto_unfollow_nonfollowers
  | OpMute => auto_mute_following
  | OpUnmute => auto_unmute
  end.

(** the two states of the bot *)
Definition unconfigured (w : World) : Prop := cfg w = ∅.

Definition ready (w : World) : Prop :=
  Forall (fun k => param_missing (cfg w) k = false) required_parameters.

(* ------------------------------------------------------------------ *)
(** ** Vocabulary of the specification *)

(** the text [write_ids] produces *)
Definition id_line (x : Z) : string := py_str x +:+ newline.

Fixpoint ids_text (l : list Z) : string :=
  match l with
  | [] => EmptyString
  | x :: l' => id_line x +:+ ids_text l'
  end.

Fixpoint no_space (s : string) : bool :=
  match s with
  | EmptyString => true
  | String c s' => negb (is_space c) && no_space s'
  end.

(** the three snapshot loaders with the configuration key of their file *)
Definition snapshot_loaders : list (string * M PyVal) :=
  [("ALREADY_FOLLOWED_FILE", get_do_not_follow_list);
   ("FOLLOWERS_FILE", get_followers_list);
   ("FOLLOWS_FILE", get_follows_list)].

(** The remote answers the listing of [ep] for [h] from cursor [c] with
    the pages [pages] (identifiers, next cursor), the last one carrying the
    cursor 0. *)
Fixpoint cursor_chain (r : Remote) (ep : Endpoint) (h : string) (c : Z)
    (pages : list (list Z * Z)) : Prop :=
  match pages with
  | [] => c = 0%Z
  | (ids, c') :: ps =>
      c <> 0%Z /\ r (CIds ep h (Some c)) = RIds ids c' /\ cursor_chain r ep h c' ps
  end.

(** the same, but the call after the last page raises [m] *)
Fixpoint cursor_chain_err (r : Remote) (ep : Endpoint) (h : string) (c : Z)
    (pages : list (list Z * Z)) (m : string) : Prop :=
  match pages with
  | [] => c <> 0%Z /\ r (CIds ep h (Some c)) = RErr m
  | (ids, c') :: ps =>
      c <> 0%Z /\ r (CIds ep h (Some c)) = RIds ids c' /\ cursor_chain_err r ep h c' ps m
  end.

(** the listing calls made along a chain *)
Fixpoint chain_calls (ep : Endpoint) (h : string) (c : Z) (pages : list (list Z * Z)) : list Call :=
  match pages with
  | [] => []
  | (_, c') :: ps => CIds ep h (Some c) :: chain_calls ep h c' ps
  end.

(** the listing of [ep] for [h] raises [m]: on its first call (no pages),
    or after the pages [pages], the first one answered with no cursor *)
Definition listing_err (r : Remote) (ep : Endpoint) (h : string)
    (pages : list (list Z * Z)) (m : string) : Prop :=
  match pages with
  | [] => r (CIds ep h None) = RErr m
  | (ids0, c0) :: ps => r (CIds ep h None) = RIds ids0 c0 /\ cursor_chain_err r ep h c0 ps m
  end.

(** the text the later pages append to the snapshot file *)
Definition pages_text (pages : list (list Z * Z)) : string :=
  ids_text (concat (map (fun pg => py_set (fst pg)) pages)).

(** the change a computation makes to the files: none, or one file
    replaced by a given text *)
Definition upd_file (o : option (string * string)) (f : gmap string string) :=
  match o with
  | None => f
  | Some (p, t) => <[p := t]> f
  end.

(** the exception [list_ids] raises on an answer that is not an id page *)
Definition list_ids_exn (resp : Resp) : Exn :=
  match resp with
  | RErr m => HTTPError m
  | _ => KeyError "ids"
  end.

(** a favorite / retweet answer the loops can use: the tweet (its text)
    or an error *)
Definition text_or_err (resp : Resp) : bool :=
  match resp with RText _ | RErr _ => true | _ => false end.

(** what the favorite / retweet loops print for one answer: [pre] and the
    text, or what the error handler prints ([hout]) *)
Definition remote_report (pre : string) (hout : string -> list string) (resp : Resp) : list string :=
  match resp with
  | RText txt => [pre +:+ txt]
  | RErr m => hout m
  | _ => []
  end.

(** the search results not written by the handle [h] *)
Definition others_tweets (h : string) (ts : list Tweet) : list Tweet :=
  List.filter (fun tw => negb (String.eqb (user_screen_name tw) h)) ts.

(** the [(parameter, value)] pair one configuration line gives to
    [bot_setup], when [line.split(":")] has at least two parts *)
Definition config_entry (line : string) : option (string * string) :=
  match split_on ":" line with
  | parameter :: value :: _ => Some (strip parameter, strip value)
  | _ => None
  end.

(** the configuration after the lines [ls] are stored into [c] in order *)
Definition merge_config (c : gmap string string) (ls : list string) : gmap string string :=
  fold_left (fun c line =>
    match config_entry line with Some (k, v) => <[k := v]> c | None => c end) ls c.

(** a computation that leaves the part [f] of the world as it is *)
Definition keeps {T A} (f : World -> T) (m : M A) : Prop :=
  forall r w, f (fst (m r w)) = f w.

(** a computation that, started from a configuration satisfying [pre],
    keeps the configuration, changes only the files at the paths [touch]
    allows and makes only the calls [allowed] allows *)
Definition confined {A} (pre : gmap string string -> Prop)
    (touch : gmap string string -> string -> Prop)
    (allowed : gmap string string -> Call -> Prop) (m : M A) : Prop :=
  forall r w, pre (cfg w) ->
    cfg (fst (m r w)) = cfg w /\
    (forall q, ~ touch (cfg w) q -> files (fst (m r w)) !! q = files w !! q) /\
    exists l, calls (fst (m r w)) = (calls w ++ l)%list /\ Forall (allowed (cfg w)) l.

(** the two snapshot paths [sync_follows] writes *)
Definition snapshot_path (C : gmap string string) (q : string) : Prop :=
  C !! "FOLLOWERS_FILE" = Some q \/ C !! "FOLLOWS_FILE" = Some q.

(** a followers or friends listing for the configured handle *)
Definition listing_call (C : gmap string string) (c : Call) : Prop :=
  exists ep h cur, c = CIds ep h cur /\ C !! "TWITTER_HANDLE" = Some h /\
    (ep = EFollowers \/ ep = EFriends).

(** a computation that leaves [BOT_CONFIG] as it is *)
Definition cfg_pres {A} (m : M A) : Prop :=
  forall r w, cfg (fst (m r w)) = cfg w.

(* ------------------------------------------------------------------ *)
(** ** A concrete set-up bot, for the instances below *)

Definition demo_cfg : gmap string string :=
  list_to_map [("OAUTH_TOKEN", "t"); ("OAUTH_SECRET", "s"); ("CONSUMER_KEY", "k");
               ("CONSUMER_SECRET", "c"); ("TWITTER_HANDLE", "me");
               ("ALREADY_FOLLOWED_FILE", "already_followed.txt");
               ("FOLLOWERS_FILE", "followers.txt"); ("FOLLOWS_FILE", "follows.txt")].

(** a ready bot with the given snapshot contents *)
Definition demo_world (already_followed followers follows : list Z) : World :=
  mkWorld demo_cfg true
    (list_to_map [("already_followed.txt", ids_text already_followed);
                  ("followers.txt", ids_text followers);
                  ("follows.txt", ids_text follows);
                  ("config.txt", EmptyString)])
    [] [].

(** the same bot whose [config.txt] now sets [OAUTH_TOKEN] to the empty string *)
Definition reset_world : World :=
  with_files (<["config.txt" := "OAUTH_TOKEN:" +:+ newline]> (files (demo_world [] [] [])))
    (demo_world [] [] []).



(** a search result: a tweet by user [uid] *)
Definition demo_tweet (uid : Z) (name : string) : Tweet := mkTweet uid EmptyString uid name.

(** a remote that refuses to follow user 1 with the message [m] *)
Definition refuse_follow_remote (m : string) : Remote :=
  fun c => match c with
           | CFriendCreate uid => if Z.eqb uid 1 then RErr m else RDone
           | _ => RDone
           end.

(** a remote whose listings come in three pages, with the cursors 5, 9, 0 *)
Definition pager_remote : Remote :=
  fun c => match c with
           | CIds _ _ None => RIds [1; 2]%Z 5
           | CIds _ _ (Some k) =>
               if Z.eqb k 5 then RIds [2; 3]%Z 9
               else if Z.eqb k 9 then RIds [4; 1]%Z 0
               else RErr "Invalid cursor"
           | _ => RDone
           end.

(** a remote whose followers come in one page and whose friends listing
    fails with a rate limit: on its first call, or ([first_ok]) on the call
    after a first page [[3]] with the cursor 7 *)
Definition split_sync_remote (first_ok : bool) : Remote :=
  fun c => match c with
           | CIds EFollowers _ None => RIds [1; 2]%Z 0
           | CIds EFriends _ None => if first_ok then RIds [3]%Z 7 else RErr "Rate limit exceeded"
           | CIds EFriends _ (Some _) => RErr "Rate limit exceeded"
           | _ => RDone
           end.

(** a remote whose mutations of user 1 fail and whose mute list is [muted] *)
Definition failing_remote (muted : list Z) : Remote :=
  fun c => match c with
           | CFriendCreate uid | CFriendDestroy uid | CMuteCreate uid | CMuteDestroy uid =>
               if Z.eqb uid 1 then RErr "Rate limit exceeded" else RDone
           | CIds EMutes _ _ => RIds muted 0
           | _ => RDone
           end.

(* ------------------------------------------------------------------ *)
(** * Proofs *)

(** ** Strings *)

Lemma str_app_assoc (a b c : string) : (a +:+ b) +:+ c = a +:+ (b +:+ c).
Proof. induction a as [|x a IH]; simpl; [reflexivity | now rewrite IH]. Qed.

Lemma str_app_nil_r (a : string) : a +:+ EmptyString = a.
Proof. induction a as [|x a IH]; simpl; [reflexivity | now rewrite IH]. Qed.

Lemma string_rev_app_spec (s acc : string) : string_rev_app s acc = string_rev s +:+ acc.
Proof.
  revert acc. induction s as [|c s IH]; intros acc; simpl; [reflexivity|].
  unfold string_rev; simpl. rewrite !IH, str_app_assoc. reflexivity.
Qed.

Lemma string_rev_cons (c : ascii) (s : string) :
  string_rev (String c s) = string_rev s +:+ String c EmptyString.
Proof. unfold string_rev at 1; simpl. apply string_rev_app_spec. Qed.

Lemma string_rev_append (a b : string) : string_rev (a +:+ b) = string_rev b +:+ string_rev a.
Proof.
  induction a as [|c a IH]; simpl.
  - unfold string_rev at 3; simpl. now rewrite str_app_nil_r.
  - rewrite !string_rev_cons, IH, str_app_assoc. reflexivity.
Qed.

Lemma string_rev_involutive (s : string) : string_rev (string_rev s) = s.
Proof.
  induction s as [|c s IH]; [reflexivity|].
  rewrite string_rev_cons, string_rev_append, IH. reflexivity.
Qed.

Lemma no_space_app (a b : string) : no_space (a +:+ b) = no_space a && no_space b.
Proof. induction a as [|c a IH]; simpl; [reflexivity|]. rewrite IH. apply andb_assoc. Qed.

Lemma no_space_rev (s : string) : no_space (string_rev s) = no_space s.
Proof.
  induction s as [|c s IH]; [reflexivity|].
  rewrite string_rev_cons, no_space_app, IH. simpl.
  destruct (is_space c), (no_space s); reflexivity.
Qed.

Lemma lstrip_no_space (s : string) : no_space s = true -> lstrip s = s.
Proof.
  destruct s as [|c s]; simpl; [reflexivity|].
  destruct (is_space c); simpl; [discriminate | reflexivity].
Qed.

Lemma strip_line (s : string) : no_space s = true -> strip (s +:+ newline) = s.
Proof.
  intros H. unfold strip, rstrip.
  destruct s as [|c s'] eqn:Es.
  - reflexivity.
  - rewrite <- Es in *. assert (Hl : lstrip (s +:+ newline) = s +:+ newline).
    { subst s. simpl in *. destruct (is_space c); [discriminate | reflexivity]. }
    rewrite Hl, string_rev_append. unfold newline at 1. simpl.
    rewrite lstrip_no_space by (now rewrite no_space_rev).
    apply string_rev_involutive.
Qed.

(** ** Decimal round trip: [int(str(n) + "\n") == n] *)

Lemma string_to_uint_to_string (u : Decimal.uint) : string_to_uint (uint_to_string u) = Some u.
Proof. induction u; simpl; try rewrite IHu; reflexivity. Qed.

Lemma no_space_uint (u : Decimal.uint) : no_space (uint_to_string u) = true.
Proof. induction u; simpl; auto. Qed.

Lemma no_space_py_str (z : Z) : no_space (py_str z) = true.
Proof. unfold py_str. destruct (Z.to_int z); simpl; apply no_space_uint. Qed.

Lemma to_int_not_nil (z : Z) :
  Z.to_int z <> Decimal.Pos Decimal.Nil /\ Z.to_int z <> Decimal.Neg Decimal.Nil.
Proof.
  split; intros E; pose proof (DecimalZ.of_to z) as H; rewrite E in H;
    simpl in H; subst z; discriminate E.
Qed.

Lemma py_int_line (z : Z) : py_int (id_line z) = Some z.
Proof.
  unfold py_int, id_line. rewrite strip_line by apply no_space_py_str.
  pose proof (DecimalZ.of_to z) as Hz. pose proof (to_int_not_nil z) as [Hp Hn].
  unfold py_str. destruct (Z.to_int z) as [u|u] eqn:E; rewrite <- Hz;
    destruct u; try congruence; simpl; rewrite string_to_uint_to_string; reflexivity.
Qed.

(** ** Reading back a written snapshot *)

Lemma file_lines_aux_line (cur s rest : string) :
  no_space s = true ->
  file_lines_aux cur (s +:+ String "010"%char rest) =
  string_rev (String "010"%char (string_rev_app s cur)) :: file_lines_aux EmptyString rest.
Proof.
  revert cur. induction s as [|c s IH]; intros cur H; [reflexivity|].
  simpl in H. apply andb_prop in H as [Hc H].
  simpl. destruct (Ascii.eqb c "010"%char) eqn:Ec.
  - apply Ascii.eqb_eq in Ec. subst c. discriminate Hc.
  - apply IH, H.
Qed.

Lemma ids_text_app (a b : list Z) : ids_text (a ++ b) = ids_text a +:+ ids_text b.
Proof. induction a as [|x a IH]; simpl; [reflexivity|]. rewrite IH. unfold id_line.
  rewrite !str_app_assoc. reflexivity. Qed.

Lemma file_lines_ids_text (l : list Z) : file_lines (ids_text l) = map id_line l.
Proof.
  unfold file_lines. induction l as [|x l IH]; [reflexivity|].
  simpl. unfold id_line. rewrite str_app_assoc.
  change (newline +:+ ids_text l) with (String "010"%char (ids_text l)).
  rewrite file_lines_aux_line by apply no_space_py_str. rewrite IH. f_equal.
  rewrite string_rev_app_spec, str_app_nil_r.
  change (String "010"%char (string_rev (py_str x))) with (newline +:+ string_rev (py_str x)).
  rewrite string_rev_append, string_rev_involutive. reflexivity.
Qed.

Lemma parse_lines_ids (l : list Z) r w : parse_lines (map id_line l) r w = (w, Ok l).
Proof.
  revert w. induction l as [|x l IH]; intros w; [reflexivity|].
  simpl. rewrite py_int_line. unfold bind. rewrite IH. reflexivity.
Qed.

(** ** The monad *)

Lemma bind_ok {A B} (m : M A) (k : A -> M B) r w w' a :
  m r w = (w', Ok a) -> bind m k r w = k a r w'.
Proof. intros H. unfold bind. rewrite H. reflexivity. Qed.

Lemma bind_exc {A B} (m : M A) (k : A -> M B) r w w' e :
  m r w = (w', Exc e) -> bind m k r w = (w', Exc e).
Proof. intros H. unfold bind. rewrite H. reflexivity. Qed.

(** ** The snapshot store *)

Lemma with_files_files (w : World) f g : with_files f (with_files g w) = with_files f w.
Proof. destruct w; reflexivity. Qed.

Lemma write_ids_spec (p s : string) (ids : list Z) r w :
  files w !! p = Some s ->
  write_ids p ids r w = (with_files (<[p := s +:+ ids_text ids]> (files w)) w, Ok tt).
Proof.
  revert s w. induction ids as [|x ids IH]; intros s w E; unfold write_ids; simpl.
  - rewrite str_app_nil_r, insert_id by exact E. destruct w; reflexivity.
  - erewrite bind_ok by (unfold fwrite; reflexivity). rewrite E. simpl.
    fold (write_ids p ids). rewrite (IH (s +:+ id_line x)) by (simpl; apply lookup_insert_eq).
    simpl. rewrite insert_insert_eq, with_files_files, str_app_assoc. reflexivity.
Qed.

Lemma replace_ids_spec (key p : string) (ids : list Z) r w :
  cfg w !! key = Some p ->
  replace_ids key ids r w = (with_files (<[p := ids_text ids]> (files w)) w, Ok tt).
Proof.
  intros Hk. unfold replace_ids, bind, cfg_get. rewrite Hk. unfold open_wb.
  rewrite write_ids_spec with (s := EmptyString) by (simpl; apply lookup_insert_eq).
  simpl. rewrite insert_insert_eq, with_files_files. reflexivity.
Qed.

Lemma read_id_file_text (key p : string) (l : list Z) r w :
  cfg w !! key = Some p -> files w !! p = Some (ids_text l) ->
  read_id_file key r w = (w, Ok (py_set l)).
Proof.
  intros Hk Hf. unfold read_id_file, bind, cfg_get, read_file. rewrite Hk, Hf.
  rewrite file_lines_ids_text, parse_lines_ids. reflexivity.
Qed.

Lemma when_set_up_ready (body : M PyVal) r w :
  cfg w <> ∅ -> when_set_up body r w = body r w.
Proof.
  intros H. unfold when_set_up, bind, get_cfg. rewrite bool_decide_false by exact H.
  reflexivity.
Qed.

Lemma when_set_up_empty (body : M PyVal) r w :
  cfg w = ∅ -> when_set_up body r w = (with_out (out w ++ [not_set_up_msg]) w, Ok VNone).
Proof.
  intros H. unfold when_set_up, bind, get_cfg. rewrite bool_decide_true by exact H.
  reflexivity.
Qed.

Lemma cfg_nonempty (w : World) k v : cfg w !! k = Some v -> cfg w <> ∅.
Proof. intros H E. rewrite E, lookup_empty in H. discriminate. Qed.

Lemma loader_spec key load r w p :
  In (key, load) snapshot_loaders -> cfg w !! key = Some p ->
  load r w = (do s <- read_id_file key; ret (VSet s)) r w.
Proof.
  intros Hin Hk. pose proof (cfg_nonempty w key p Hk) as Hne.
  simpl in Hin. destruct Hin as [E|[E|[E|[]]]]; injection E; intros; subst;
    apply when_set_up_ready, Hne.
Qed.

(** ** C7: snapshot round trip *)

(** C7: writing a set [S] to a snapshot file as [sync_follows] does (one
    decimal identifier per line, the file truncated first) and loading it
    back with any of the three loaders returns exactly [S]; a loader reading
    an existing empty file returns the empty set. *)
Theorem snapshot_roundtrip (key p : string) (load : M PyVal) (S : list Z) r w :
  In (key, load) snapshot_loaders -> cfg w !! key = Some p -> List.NoDup S ->
  load r (fst (replace_ids key S r w)) = (fst (replace_ids key S r w), Ok (VSet S)) /\
  (files w !! p = Some EmptyString -> load r w = (w, Ok (VSet []))).
Proof.
  intros Hin Hk HS. split.
  - rewrite replace_ids_spec with (p := p) by exact Hk. simpl.
    rewrite (loader_spec key load) with (p := p) by assumption.
    erewrite bind_ok.
    2:{ apply read_id_file_text with (p := p); [exact Hk | apply lookup_insert_eq]. }
    unfold py_set. rewrite nodup_fixed_point by exact HS. reflexivity.
  - intros Hf. rewrite (loader_spec key load) with (p := p) by assumption.
    erewrite bind_ok by (apply read_id_file_text with (p := p) (l := []); assumption).
    reflexivity.
Qed.

Lemma snapshot_roundtrip_witness :
  In ("FOLLOWERS_FILE", get_followers_list) snapshot_loaders /\
  demo_cfg !! "FOLLOWERS_FILE" = Some "followers.txt" /\ List.NoDup [7; -3; 120]%Z /\
  get_followers_list (fun _ => RDone)
    (fst (replace_ids "FOLLOWERS_FILE" [7; -3; 120]%Z (fun _ => RDone) (demo_world [] [] []))) =
    (fst (replace_ids "FOLLOWERS_FILE" [7; -3; 120]%Z (fun _ => RDone) (demo_world [] [] [])),
     Ok (VSet [7; -3; 120]%Z)).
Proof.
  split; [simpl; tauto|]. split; [reflexivity|]. split.
  - repeat constructor; simpl; intuition lia.
  - apply (snapshot_roundtrip "FOLLOWERS_FILE" "followers.txt" get_followers_list
             [7; -3; 120]%Z (fun _ => RDone) (demo_world [] [] [])).
    + simpl; tauto.
    + reflexivity.
    + repeat constructor; simpl; intuition lia.
Defined.

(** ** C8: the unconfigured bot *)

(** C8: in the Unconfigured state (empty [BOT_CONFIG]) every public method
    other than [bot_setup] (sync, the three loaders, search and the bulk
    operations) only prints the "not set up" message and returns [None]: no
    remote call is issued and no file is touched. *)
Theorem unconfigured_noop (op : Op) r w :
  unconfigured w ->
  run_op op r w = (with_out (out w ++ [not_set_up_msg]) w, Ok VNone).
Proof.
  intros H. destruct op; simpl;
    unfold auto_unfollow_nonfollowers, auto_mute_following, auto_unmute;
    apply when_set_up_empty, H.
Qed.

Lemma unconfigured_noop_witness :
  unconfigured (mkWorld ∅ false ∅ [] []) /\
  run_op OpUnfollow (fun _ => RDone) (mkWorld ∅ false ∅ [] []) =
  (mkWorld ∅ false ∅ [] [not_set_up_msg], Ok VNone).
Proof.
  split; [reflexivity|].
  apply (unconfigured_noop OpUnfollow (fun _ => RDone) (mkWorld ∅ false ∅ [] [])).
  reflexivity.
Defined.

(** ** Which computations keep [BOT_CONFIG] *)

Create HintDb cfgdb.

Lemma cfg_pres_ret {A} (a : A) : cfg_pres (ret a).
Proof. intros r w. reflexivity. Qed.

Lemma cfg_pres_raise {A} e : cfg_pres (@raise A e).
Proof. intros r w. reflexivity. Qed.

Lemma cfg_pres_bind {A B} (m : M A) (k : A -> M B) :
  cfg_pres m -> (forall a, cfg_pres (k a)) -> cfg_pres (bind m k).
Proof.
  intros Hm Hk r w. unfold bind. specialize (Hm r w).
  destruct (m r w) as [w' [a|e]]; simpl in *; [rewrite Hk|]; exact Hm.
Qed.

Lemma cfg_pres_mtry {A} (body : M A) h :
  cfg_pres body -> (forall e, cfg_pres (h e)) -> cfg_pres (mtry body h).
Proof.
  intros Hb Hh r w. unfold mtry. specialize (Hb r w).
  destruct (body r w) as [w' [a|e]]; simpl in *; [|rewrite Hh]; exact Hb.
Qed.

Lemma cfg_pres_except_http {A} (body : M A) h :
  cfg_pres body -> (forall m, cfg_pres (h m)) -> cfg_pres (except_http body h).
Proof.
  intros Hb Hh. apply cfg_pres_mtry; [exact Hb|]. intros []; auto using cfg_pres_raise.
Qed.

Lemma cfg_pres_except_exception {A} (body : M A) h :
  cfg_pres body -> (forall e, cfg_pres (h e)) -> cfg_pres (except_exception body h).
Proof.
  intros Hb Hh. apply cfg_pres_mtry; [exact Hb|]. intros []; auto using cfg_pres_raise.
Qed.

Lemma cfg_pres_mfor {A} (l : list A) body :
  (forall x, cfg_pres (body x)) -> cfg_pres (mfor l body).
Proof.
  intros Hb. induction l as [|x l IH]; simpl.
  - apply cfg_pres_ret.
  - apply cfg_pres_bind; auto.
Qed.

Lemma cfg_pres_get_cfg : cfg_pres get_cfg.
Proof. intros r w. reflexivity. Qed.

Lemma cfg_pres_cfg_get k : cfg_pres (cfg_get k).
Proof. intros r w. unfold cfg_get. destruct (cfg w !! k); reflexivity. Qed.

Lemma cfg_pres_print s : cfg_pres (print s).
Proof. intros r w. reflexivity. Qed.

Lemma cfg_pres_remote_call c : cfg_pres (remote_call c).
Proof. intros r w. unfold remote_call. destruct (conn w), (r c); reflexivity. Qed.

Lemma cfg_pres_read_file p : cfg_pres (read_file p).
Proof. intros r w. unfold read_file. destruct (files w !! p); reflexivity. Qed.

Lemma cfg_pres_open_wb p : cfg_pres (open_wb p).
Proof. intros r w. reflexivity. Qed.

Lemma cfg_pres_open_ab p : cfg_pres (open_ab p).
Proof. intros r w. reflexivity. Qed.

Lemma cfg_pres_fwrite p s : cfg_pres (fwrite p s).
Proof. intros r w. reflexivity. Qed.

Lemma cfg_pres_isfile p : cfg_pres (isfile p).
Proof. intros r w. reflexivity. Qed.

#[local] Hint Resolve cfg_pres_ret cfg_pres_raise cfg_pres_get_cfg cfg_pres_cfg_get
  cfg_pres_print cfg_pres_remote_call cfg_pres_read_file cfg_pres_open_wb
  cfg_pres_open_ab cfg_pres_fwrite cfg_pres_isfile : cfgdb.

Lemma cfg_pres_when_set_up body : cfg_pres body -> cfg_pres (when_set_up body).
Proof.
  intros H. unfold when_set_up. apply cfg_pres_bind; [apply cfg_pres_get_cfg|].
  intros c. destruct (bool_decide _); [|exact H].
  apply cfg_pres_bind; [apply cfg_pres_print | intros; apply cfg_pres_ret].
Qed.

(** walk through a method body: binds, handlers, loops and branches *)
Ltac cfg_walk :=
  repeat match goal with
  | |- cfg_pres (bind _ _) => apply cfg_pres_bind; intros
  | |- cfg_pres (except_http _ _) => apply cfg_pres_except_http; intros
  | |- cfg_pres (except_exception _ _) => apply cfg_pres_except_exception; intros
  | |- cfg_pres (mfor _ _) => apply cfg_pres_mfor; intros
  | |- cfg_pres (when_set_up _) => apply cfg_pres_when_set_up
  | |- cfg_pres (match ?x with _ => _ end) => destruct x
  | |- cfg_pres (if ?b then _ else _) => destruct b
  | |- cfg_pres _ => solve [eauto with cfgdb]
  end.


Lemma cfg_pres_parse_lines ls : cfg_pres (parse_lines ls).
Proof. induction ls as [|l ls IH]; simpl; cfg_walk. Qed.

#[local] Hint Resolve cfg_pres_parse_lines : cfgdb.

Lemma cfg_pres_as_set v : cfg_pres (as_set v).
Proof. unfold as_set. cfg_walk. Qed.

Lemma cfg_pres_statuses_of v : cfg_pres (statuses_of v).
Proof. unfold statuses_of. cfg_walk. Qed.

Lemma cfg_pres_ids_of v : cfg_pres (ids_of v).
Proof. unfold ids_of. cfg_walk. Qed.

Lemma cfg_pres_text_of v : cfg_pres (text_of v).
Proof. unfold text_of. cfg_walk. Qed.

Lemma cfg_pres_read_id_file k : cfg_pres (read_id_file k).
Proof. unfold read_id_file. cfg_walk. Qed.

Lemma cfg_pres_write_ids p ids : cfg_pres (write_ids p ids).
Proof. unfold write_ids. cfg_walk. Qed.

Lemma cfg_pres_list_ids ep h c : cfg_pres (list_ids ep h c).
Proof. unfold list_ids. cfg_walk. Qed.

#[local] Hint Resolve cfg_pres_as_set cfg_pres_statuses_of cfg_pres_ids_of
  cfg_pres_text_of cfg_pres_read_id_file cfg_pres_write_ids cfg_pres_list_ids : cfgdb.

Lemma cfg_pres_replace_ids k ids : cfg_pres (replace_ids k ids).
Proof. unfold replace_ids. cfg_walk. Qed.

Lemma cfg_pres_sync_pages ep k fuel c : cfg_pres (sync_pages ep k fuel c).
Proof. revert c. induction fuel as [|fuel IH]; intros c; simpl; cfg_walk. Qed.

#[local] Hint Resolve cfg_pres_replace_ids cfg_pres_sync_pages : cfgdb.

Lemma cfg_pres_sync_role ep k fuel : cfg_pres (sync_role ep k fuel).
Proof. unfold sync_role. cfg_walk. Qed.

Lemma cfg_pres_getters :
  cfg_pres get_do_not_follow_list /\ cfg_pres get_followers_list /\ cfg_pres get_follows_list.
Proof. unfold get_do_not_follow_list, get_followers_list, get_follows_list. repeat split; cfg_walk. Qed.

Lemma cfg_pres_search q c t : cfg_pres (search_tweets q c t).
Proof. unfold search_tweets. cfg_walk. Qed.

Lemma cfg_pres_auto_follow_loop dnf following ts : cfg_pres (auto_follow_loop dnf following ts).
Proof.
  revert following. induction ts as [|t ts IH]; intros following; simpl; [cfg_walk|].
  apply cfg_pres_bind; [|exact IH].
  unfold follow_body, follow_handler. cfg_walk.
Qed.

#[local] Hint Resolve cfg_pres_sync_role cfg_pres_search cfg_pres_auto_follow_loop : cfgdb.
#[local] Hint Extern 1 (cfg_pres get_do_not_follow_list) => apply cfg_pres_getters : cfgdb.
#[local] Hint Extern 1 (cfg_pres get_followers_list) => apply cfg_pres_getters : cfgdb.
#[local] Hint Extern 1 (cfg_pres get_follows_list) => apply cfg_pres_getters : cfgdb.

Lemma cfg_pres_unfollow_loop keep l : cfg_pres (unfollow_loop keep l).
Proof. unfold unfollow_loop. cfg_walk. Qed.

#[local] Hint Resolve cfg_pres_unfollow_loop : cfgdb.

Lemma cfg_pres_run_op op : cfg_pres (run_op op).
Proof.
  destruct op; simpl;
    unfold sync_follows, auto_fav, auto_rt, auto_follow, auto_follow_followers,
      auto_follow_followers_of_user, auto_unfollow_nonfollowers,
      auto_unfollow_nonfollowers_keep, auto_mute_following, auto_mute_following_keep,
      auto_unmute, auto_unmute_keep;
    cfg_walk.
Qed.

(** ** C9: leaving the Ready state *)

Lemma mfor_print {A} (l : list A) (g : A -> string) r w :
  mfor l (fun k => print (g k)) r w = (with_out (out w ++ map g l) w, Ok tt).
Proof.
  revert w. induction l as [|x l IH]; intros w; simpl.
  - rewrite app_nil_r. destruct w; reflexivity.
  - unfold bind at 1, print at 1. rewrite IH. simpl. rewrite <- app_assoc. reflexivity.
Qed.

Lemma filter_nil_forall (c : gmap string string) :
  List.filter (param_missing c) required_parameters = [] ->
  Forall (fun k => param_missing c k = false) required_parameters.
Proof.
  intros H. apply List.Forall_forall. intros k Hk.
  destruct (param_missing c k) eqn:E; [|reflexivity]. exfalso.
  assert (Hin : In k (List.filter (param_missing c) required_parameters)).
  { apply filter_In. auto. }
  rewrite H in Hin. exact Hin.
Qed.

(** C9 (amended): only [bot_setup] changes [BOT_CONFIG]. Every other public
    method leaves the configuration as it is, so none of them takes a Ready
    bot back to Unconfigured. Re-running [bot_setup] does: when the lines of
    the configuration file leave a required parameter missing or empty, the
    configuration is reset to [{}] (Unconfigured); otherwise the bot ends
    Ready with the updated configuration. *)
Theorem only_setup_leaves_ready :
  (forall op r w, cfg (fst (run_op op r w)) = cfg w) /\
  (forall cf s r w w1,
     files w !! cf = Some s ->
     read_config_lines (file_lines s) r w = (w1, Ok tt) ->
     (List.filter (param_missing (cfg w1)) required_parameters <> [] ->
      unconfigured (fst (bot_setup cf r w))) /\
     (List.filter (param_missing (cfg w1)) required_parameters = [] ->
      cfg (fst (bot_setup cf r w)) = cfg w1 /\ ready (fst (bot_setup cf r w)))).
Proof.
  split.
  - intros op. apply cfg_pres_run_op.
  - intros cf s r w w1 Hf Hr.
    unfold bot_setup.
    rewrite (bind_ok _ _ r w w s) by (unfold read_file; rewrite Hf; reflexivity).
    rewrite (bind_ok _ _ r w w1 tt) by exact Hr.
    rewrite (bind_ok _ _ r w1 w1 (cfg w1)) by reflexivity.
    rewrite bind_ok with (w' := with_out (out w1 ++ map (fun k => "Missing config parameter: " +:+ k)
                              (List.filter (param_missing (cfg w1)) required_parameters)) w1) (a := tt)
      by apply mfor_print.
    split.
    + intros Hm. rewrite bool_decide_false by exact Hm. simpl.
      unfold bind, print, set_cfg. reflexivity.
    + intros Hm. rewrite bool_decide_true by exact Hm. simpl.
      assert (Hc : forall m : M unit, cfg_pres m ->
                cfg (fst (bind m (fun _ => set_conn true) r
                  (with_out (out w1 ++ map (fun k => "Missing config parameter: " +:+ k)
                     (List.filter (param_missing (cfg w1)) required_parameters)) w1))) = cfg w1).
      { intros m Hpres. pose proof (cfg_pres_bind m (fun _ => set_conn true) Hpres) as H.
        rewrite H; [reflexivity|]. intros _ r' w'. reflexivity. }
      rewrite Hc; [split; [reflexivity|]|].
      * unfold ready. rewrite Hc; [apply filter_nil_forall, Hm|]. cfg_walk.
      * cfg_walk.
Qed.

Lemma only_setup_leaves_ready_witness :
  unconfigured (fst (bot_setup "config.txt" (fun _ => RDone) reset_world)).
Proof.
  destruct only_setup_leaves_ready as [_ H].
  apply (H "config.txt" ("OAUTH_TOKEN:" +:+ newline) (fun _ => RDone) reset_world
           (fst (read_config_lines (file_lines ("OAUTH_TOKEN:" +:+ newline)) (fun _ => RDone) reset_world))).
  - reflexivity.
  - reflexivity.
  - vm_compute. discriminate.
Defined.

(** C9 as stated fails: a Ready bot that re-runs [bot_setup] on a
    configuration file with the line [OAUTH_TOKEN:] ends Unconfigured. *)
Lemma setup_rerun_unconfigures :
  ready reset_world /\ unconfigured (fst (bot_setup "config.txt" (fun _ => RDone) reset_world)).
Proof.
  split.
  - unfold ready. repeat constructor.
  - vm_compute. reflexivity.
Qed.

(** ** Sets *)

Lemma py_mem_In x s : py_mem x s = true <-> In x s.
Proof.
  unfold py_mem. rewrite existsb_exists. split.
  - intros [y [Hy E]]. apply Z.eqb_eq in E. subst. exact Hy.
  - intros H. exists x. split; [exact H | apply Z.eqb_refl].
Qed.

Lemma py_diff_In x a b : In x (py_diff a b) <-> In x a /\ ~ In x b.
Proof.
  unfold py_diff. rewrite filter_In. pose proof (py_mem_In x b) as Hm.
  destruct (py_mem x b); simpl; split; intros [H1 H2]; split; auto.
  - discriminate.
  - exfalso. apply H2, Hm. reflexivity.
  - intros Hb. apply Hm in Hb. discriminate.
Qed.

Lemma py_diff_nodup a b : List.NoDup a -> List.NoDup (py_diff a b).
Proof. apply List.NoDup_filter. Qed.

Lemma py_set_nodup l : List.NoDup (py_set l).
Proof. apply List.NoDup_nodup. Qed.

Lemma py_set_In x l : In x (py_set l) <-> In x l.
Proof. apply List.nodup_In. Qed.

Lemma read_id_file_nodup k r w w' l :
  read_id_file k r w = (w', Ok l) -> List.NoDup l.
Proof.
  unfold read_id_file, bind.
  destruct (cfg_get k r w) as [w1 [p|e]]; [|discriminate].
  destruct (read_file p r w1) as [w2 [s|e]]; [|discriminate].
  destruct (parse_lines (file_lines s) r w2) as [w3 [l'|e]]; [|discriminate].
  intros H. injection H as _ <-. apply py_set_nodup.
Qed.

Lemma getter_set (load : M PyVal) key r w l :
  In (key, load) snapshot_loaders -> cfg w <> ∅ ->
  read_id_file key r w = (w, Ok l) -> load r w = (w, Ok (VSet l)).
Proof.
  intros Hin Hne Hr.
  simpl in Hin. destruct Hin as [E|[E|[E|[]]]]; injection E; intros; subst;
    unfold get_do_not_follow_list, get_followers_list, get_follows_list;
    rewrite when_set_up_ready by exact Hne; unfold bind; rewrite Hr; reflexivity.
Qed.

(** ** C4: follow-back *)

Lemma follow_back_loop l r w :
  conn w = true ->
  mfor l (fun uid => except_exception (do _ <- remote_call (CFriendCreate uid); ret tt)
                                      (fun e => print ("error: " +:+ exn_str e))) r w =
  (mkWorld (cfg w) (conn w) (files w) (calls w ++ map CFriendCreate l)
     (out w ++ List.concat (map (fun uid =>
        match r (CFriendCreate uid) with RErr m => ["error: " +:+ m] | _ => [] end) l)), Ok tt).
Proof.
  revert w. induction l as [|x l IH]; intros w Hc; simpl.
  - rewrite !app_nil_r. destruct w; reflexivity.
  - unfold bind at 1, except_exception, mtry, bind at 1, remote_call. rewrite Hc.
    destruct (r (CFriendCreate x)) eqn:Er; simpl; rewrite IH by exact Hc; simpl;
      rewrite <- !app_assoc, Hc; reflexivity.
Qed.

(** C4: for every followers set [W] and follows set [F] loaded from the
    snapshots, [auto_follow_followers] issues [friendships.create] exactly
    once for each identifier of [W - F] and for no other one (so never for
    an identifier of [F]), whatever the remote answers. *)
Theorem follow_back_exact r w F W :
  cfg w <> ∅ -> conn w = true ->
  read_id_file "FOLLOWS_FILE" r w = (w, Ok F) ->
  read_id_file "FOLLOWERS_FILE" r w = (w, Ok W) ->
  exists w' D,
    auto_follow_followers r w = (w', Ok VNone) /\
    calls w' = (calls w ++ map CFriendCreate D)%list /\ List.NoDup D /\
    (forall x, In x D <-> In x W /\ ~ In x F).
Proof.
  intros Hne Hc HF HW.
  unfold auto_follow_followers. rewrite when_set_up_ready by exact Hne.
  rewrite (bind_ok _ _ r w w (VSet F)) by (apply (getter_set _ "FOLLOWS_FILE"); simpl; tauto).
  rewrite (bind_ok _ _ r w w F) by reflexivity.
  rewrite (bind_ok _ _ r w w (VSet W)) by (apply (getter_set _ "FOLLOWERS_FILE"); simpl; tauto).
  rewrite (bind_ok _ _ r w w W) by reflexivity.
  cbv zeta. erewrite bind_ok by (apply follow_back_loop, Hc).
  eexists _, (py_diff W F). split; [reflexivity|]. split; [reflexivity|]. split.
  - apply py_diff_nodup, (read_id_file_nodup _ _ _ _ _ HW).
  - intros x. apply py_diff_In.
Qed.

Lemma follow_back_exact_witness :
  exists w' D,
    auto_follow_followers (fun _ => RDone) (demo_world [] [1; 2; 3]%Z [2; 3; 4]%Z) = (w', Ok VNone) /\
    calls w' = map CFriendCreate D /\ List.NoDup D /\
    (forall x, In x D <-> In x [1; 2; 3]%Z /\ ~ In x [2; 3; 4]%Z).
Proof.
  apply (follow_back_exact (fun _ => RDone) (demo_world [] [1; 2; 3]%Z [2; 3; 4]%Z)).
  - vm_compute. discriminate.
  - reflexivity.
  - reflexivity.
  - reflexivity.
Defined.

Example follow_back_scenario :
  calls (fst (auto_follow_followers (fun _ => RDone) (demo_world [] [1; 2; 3]%Z [2; 3; 4]%Z)))
  = [CFriendCreate 1].
Proof. vm_compute. reflexivity. Qed.

(** ** C1: follow-matching aborts on errors other than "blocked" *)

(** C1 (amended): in [auto_follow], when following the author of a search
    result raises a remote error with message [m], the message is printed;
    if [m] contains "blocked" case-insensitively ([str(e).lower()]), the
    loop goes on with the next result and the same [following] set;
    otherwise [quit()] raises [SystemExit], which ends the run: no later
    result is processed. *)
Theorem follow_matching_error_policy dnf following t ts r w w1 m :
  follow_body dnf following t r w = (w1, Exc (HTTPError m)) ->
  auto_follow_loop dnf following (t :: ts) r w =
  (if contains "blocked" (lower m)
   then auto_follow_loop dnf following ts r (with_out (out w1 ++ ["error: " +:+ m])%list w1)
   else (with_out (out w1 ++ ["error: " +:+ m])%list w1, Exc SystemExit)).
Proof.
  intros H. simpl. unfold bind at 1, except_http, mtry. rewrite H.
  unfold follow_handler, bind, print. destruct (contains "blocked" (lower m)); reflexivity.
Qed.

Lemma follow_matching_error_policy_witness :
  auto_follow_loop [] [] [demo_tweet 1 "alice"; demo_tweet 2 "bob"]
    (refuse_follow_remote "Rate limit exceeded") (demo_world [] [] []) =
  (with_out (out (fst (follow_body [] [] (demo_tweet 1 "alice")
                         (refuse_follow_remote "Rate limit exceeded") (demo_world [] [] [])))
             ++ ["error: " +:+ "Rate limit exceeded"])%list
     (fst (follow_body [] [] (demo_tweet 1 "alice")
             (refuse_follow_remote "Rate limit exceeded") (demo_world [] [] []))),
   Exc SystemExit).
Proof.
  apply (follow_matching_error_policy [] [] (demo_tweet 1 "alice") [demo_tweet 2 "bob"]
           (refuse_follow_remote "Rate limit exceeded") (demo_world [] [] [])
           (fst (follow_body [] [] (demo_tweet 1 "alice")
                   (refuse_follow_remote "Rate limit exceeded") (demo_world [] [] [])))
           "Rate limit exceeded").
  vm_compute. reflexivity.
Defined.

(** C1 as stated fails: the message "You are BLOCKED" does not contain
    "blocked", yet the run goes on and follows the author of the next
    result. *)
Lemma follow_matching_uppercase_blocked :
  contains "blocked" "You are BLOCKED" = false /\
  snd (auto_follow_loop [] [] [demo_tweet 1 "alice"; demo_tweet 2 "bob"]
         (refuse_follow_remote "You are BLOCKED") (demo_world [] [] [])) = Ok tt /\
  calls (fst (auto_follow_loop [] [] [demo_tweet 1 "alice"; demo_tweet 2 "bob"]
         (refuse_follow_remote "You are BLOCKED") (demo_world [] [] []))) =
  [CFriendCreate 1; CFriendCreate 2].
Proof. vm_compute. repeat split. Qed.

(** ** C2 and C3: a failing mutation in the other bulk operations *)

(** C2 (code_bug): with following = {1, 2}, followers = {} and a remote
    whose mutations of user 1 fail, [auto_follow_followers] catches the
    error and still follows user 2, but [auto_unfollow_nonfollowers],
    [auto_mute_following] and [auto_unmute] let the [TwitterHTTPError]
    escape after the call on user 1: user 2 is never attempted. *)
Theorem bulk_ops_stop_at_first_error :
  calls (fst (auto_follow_followers (failing_remote []) (demo_world [] [1; 2]%Z []))) =
    [CFriendCreate 1; CFriendCreate 2] /\
  snd (auto_follow_followers (failing_remote []) (demo_world [] [1; 2]%Z [])) = Ok VNone /\
  calls (fst (auto_unfollow_nonfollowers (failing_remote []) (demo_world [] [] [1; 2]%Z))) =
    [CFriendDestroy 1] /\
  snd (auto_unfollow_nonfollowers (failing_remote []) (demo_world [] [] [1; 2]%Z)) =
    Exc (HTTPError "Rate limit exceeded") /\
  calls (fst (auto_mute_following (failing_remote []) (demo_world [] [] [1; 2]%Z))) =
    [CIds EMutes "me" None; CMuteCreate 1] /\
  snd (auto_mute_following (failing_remote []) (demo_world [] [] [1; 2]%Z)) =
    Exc (HTTPError "Rate limit exceeded") /\
  calls (fst (auto_unmute (failing_remote [1; 2]%Z) (demo_world [] [] []))) =
    [CIds EMutes "me" None; CMuteDestroy 1] /\
  snd (auto_unmute (failing_remote [1; 2]%Z) (demo_world [] [] [])) =
    Exc (HTTPError "Rate limit exceeded").
Proof. vm_compute. repeat split. Qed.

(** C3 (code_bug): with following F = {1, 2}, followers W = {}, an empty
    ledger and the shipped keep-set {}, the ledger is first rewritten to
    {1, 2} = L ∪ (F - W); then the destroy call for user 1 fails and ends
    the run, so no destroy call is issued for user 2 although 2 is in
    (F - W) - K. *)
Theorem unfollow_destroys_stop_at_first_error :
  In 2%Z (py_diff [1; 2]%Z []) /\
  files (fst (auto_unfollow_nonfollowers (failing_remote []) (demo_world [] [] [1; 2]%Z)))
    !! "already_followed.txt" = Some (ids_text [1; 2]%Z) /\
  calls (fst (auto_unfollow_nonfollowers (failing_remote []) (demo_world [] [] [1; 2]%Z))) =
    [CFriendDestroy 1] /\
  ~ In (CFriendDestroy 2)
    (calls (fst (auto_unfollow_nonfollowers (failing_remote []) (demo_world [] [] [1; 2]%Z)))).
Proof.
  vm_compute. split; [right; left; reflexivity|]. split; [reflexivity|]. split; [reflexivity|].
  intros [H|[]]. discriminate.
Qed.

(** ** The remote pager *)

Lemma pages_text_cons ids c ps : pages_text ((ids, c) :: ps) = ids_text (py_set ids) +:+ pages_text ps.
Proof. unfold pages_text. simpl. apply ids_text_app. Qed.

Lemma list_ids_ok ep h cur ids nc r w :
  conn w = true -> r (CIds ep h cur) = RIds ids nc ->
  list_ids ep h cur r w = (with_calls (calls w ++ [CIds ep h cur])%list w, Ok (ids, nc)).
Proof. intros Hc Hr. unfold list_ids, bind, remote_call. rewrite Hc, Hr. reflexivity. Qed.

Lemma list_ids_err ep h cur m r w :
  conn w = true -> r (CIds ep h cur) = RErr m ->
  list_ids ep h cur r w = (with_calls (calls w ++ [CIds ep h cur])%list w, Exc (HTTPError m)).
Proof. intros Hc Hr. unfold list_ids, bind, remote_call. rewrite Hc, Hr. reflexivity. Qed.

Lemma sync_pages_chain ep key r h p pages : forall c fuel w s,
  cfg w !! "TWITTER_HANDLE" = Some h -> cfg w !! key = Some p -> conn w = true ->
  files w !! p = Some s ->
  cursor_chain r ep h c pages -> length pages <= fuel ->
  sync_pages ep key fuel c r w =
  (mkWorld (cfg w) (conn w) (<[p := s +:+ pages_text pages]> (files w))
     (calls w ++ chain_calls ep h c pages) (out w), Ok tt).
Proof.
  induction pages as [|[ids c'] ps IH]; intros c fuel w s Hh Hk Hc Hf Hch Hlen.
  - simpl in Hch. subst c. destruct fuel; simpl;
      unfold pages_text; simpl; rewrite str_app_nil_r, insert_id, app_nil_r by exact Hf;
      destruct w; reflexivity.
  - simpl in Hch. destruct Hch as (Hnz & Hr & Hch).
    destruct fuel as [|fuel]; [simpl in Hlen; lia|]. simpl in Hlen.
    simpl. rewrite (proj2 (Z.eqb_neq c 0) Hnz).
    rewrite (bind_ok _ _ r w w h) by (unfold cfg_get; rewrite Hh; reflexivity).
    erewrite bind_ok by (apply list_ids_ok; eassumption). cbv beta iota.
    rewrite (bind_ok _ _ r _ _ p) by (unfold cfg_get; simpl; rewrite Hk; reflexivity).
    erewrite bind_ok by (unfold open_ab; reflexivity).
    erewrite bind_ok.
    2:{ apply write_ids_spec with (s := s). simpl. rewrite lookup_insert_eq, Hf. reflexivity. }
    rewrite (IH c' fuel _ (s +:+ ids_text (py_set ids))); simpl; auto; [| | lia].
    + rewrite pages_text_cons, str_app_assoc, !insert_insert_eq, <- app_assoc. reflexivity.
    + apply lookup_insert_eq.
Qed.

Lemma sync_role_chain ep key r h p ids0 c0 pages fuel w :
  cfg w !! "TWITTER_HANDLE" = Some h -> cfg w !! key = Some p -> conn w = true ->
  r (CIds ep h None) = RIds ids0 c0 -> cursor_chain r ep h c0 pages -> length pages <= fuel ->
  sync_role ep key fuel r w =
  (mkWorld (cfg w) (conn w) (<[p := ids_text (py_set ids0) +:+ pages_text pages]> (files w))
     (calls w ++ CIds ep h None :: chain_calls ep h c0 pages) (out w), Ok tt).
Proof.
  intros Hh Hk Hc Hr Hch Hlen. unfold sync_role.
  rewrite (bind_ok _ _ r w w h) by (unfold cfg_get; rewrite Hh; reflexivity).
  erewrite bind_ok by (apply list_ids_ok; eassumption). cbv beta iota.
  erewrite bind_ok by (apply replace_ids_spec; simpl; exact Hk).
  rewrite (sync_pages_chain ep key r h p pages c0 fuel _ (ids_text (py_set ids0)));
    simpl; auto using lookup_insert_eq.
  rewrite insert_insert_eq, <- app_assoc. reflexivity.
  all: first [assumption | apply lookup_insert_eq].
Qed.

Lemma in_pages_text x (pages : list (list Z * Z)) :
  In x (concat (map (fun pg : list Z * Z => py_set (fst pg)) pages)) <->
  exists pg, In pg pages /\ In x (fst pg).
Proof.
  rewrite in_concat. split.
  - intros (l & Hl & Hx). apply in_map_iff in Hl. destruct Hl as (pg & <- & Hpg).
    exists pg. split; [exact Hpg | apply py_set_In, Hx].
  - intros (pg & Hpg & Hx). exists (py_set (fst pg)). split.
    + apply in_map_iff. exists pg. split; [reflexivity | exact Hpg].
    + apply py_set_In, Hx.
Qed.

(** C5: the pager lists [ep] first with no cursor, then once with each
    returned [next_cursor] until the remote answers the cursor 0; after it
    the snapshot file of [key] holds the union of the identifiers of all
    the pages (the first page and every page of the chain). *)
Theorem pager_follows_cursors ep key r h p ids0 c0 pages fuel w :
  cfg w !! "TWITTER_HANDLE" = Some h -> cfg w !! key = Some p -> conn w = true ->
  r (CIds ep h None) = RIds ids0 c0 -> cursor_chain r ep h c0 pages -> length pages <= fuel ->
  snd (sync_role ep key fuel r w) = Ok tt /\
  calls (fst (sync_role ep key fuel r w)) =
    (calls w ++ CIds ep h None :: chain_calls ep h c0 pages)%list /\
  exists S, read_id_file key r (fst (sync_role ep key fuel r w)) =
              (fst (sync_role ep key fuel r w), Ok S) /\
            List.NoDup S /\
            forall x, In x S <-> In x ids0 \/ exists pg, In pg pages /\ In x (fst pg).
Proof.
  intros Hh Hk Hc Hr Hch Hlen.
  rewrite (sync_role_chain ep key r h p ids0 c0 pages fuel w) by assumption. simpl.
  split; [reflexivity | split; [reflexivity |]].
  exists (py_set (py_set ids0 ++ concat (map (fun pg : list Z * Z => py_set (fst pg)) pages))).
  split; [| split; [apply py_set_nodup |]].
  - apply read_id_file_text with (p := p); simpl; [exact Hk |].
    rewrite lookup_insert_eq. unfold pages_text. rewrite ids_text_app. reflexivity.
  - intros x. rewrite py_set_In, in_app_iff, py_set_In, in_pages_text. reflexivity.
Qed.

(** the remote answering the cursors 5, 9, 0: three listing calls, and the
    followers snapshot holds the four identifiers of the three pages *)
Lemma pager_follows_cursors_witness :
  calls (fst (sync_role EFollowers "FOLLOWERS_FILE" 3 pager_remote (demo_world [] [] []))) =
    [CIds EFollowers "me" None; CIds EFollowers "me" (Some 5%Z);
     CIds EFollowers "me" (Some 9%Z)] /\
  snd (read_id_file "FOLLOWERS_FILE" pager_remote
         (fst (sync_role EFollowers "FOLLOWERS_FILE" 3 pager_remote (demo_world [] [] [])))) =
    Ok [2; 3; 4; 1]%Z /\
  (snd (sync_role EFollowers "FOLLOWERS_FILE" 3 pager_remote (demo_world [] [] [])) = Ok tt /\
   calls (fst (sync_role EFollowers "FOLLOWERS_FILE" 3 pager_remote (demo_world [] [] []))) =
     (calls (demo_world [] [] []) ++ CIds EFollowers "me" None ::
        chain_calls EFollowers "me" 5 [([2; 3]%Z, 9%Z); ([4; 1]%Z, 0%Z)])%list /\
   exists S, read_id_file "FOLLOWERS_FILE" pager_remote
               (fst (sync_role EFollowers "FOLLOWERS_FILE" 3 pager_remote (demo_world [] [] []))) =
             (fst (sync_role EFollowers "FOLLOWERS_FILE" 3 pager_remote (demo_world [] [] [])), Ok S) /\
           List.NoDup S /\
           forall x, In x S <-> In x [1; 2]%Z \/
             exists pg, In pg [([2; 3]%Z, 9%Z); ([4; 1]%Z, 0%Z)] /\ In x (fst pg)).
Proof.
  split; [vm_compute; reflexivity |]. split; [vm_compute; reflexivity |].
  apply (pager_follows_cursors EFollowers "FOLLOWERS_FILE" pager_remote "me" "followers.txt"
           [1; 2]%Z 5 [([2; 3]%Z, 9%Z); ([4; 1]%Z, 0%Z)] 3 (demo_world [] [] []));
    [vm_compute; reflexivity | vm_compute; reflexivity | reflexivity | reflexivity | | simpl; lia].
  simpl. repeat split; (lia || reflexivity).
Defined.

(** ** C6: the file effect of a sync *)

Lemma list_ids_bad ep h cur r w :
  conn w = true -> (forall ids nc, r (CIds ep h cur) <> RIds ids nc) ->
  list_ids ep h cur r w =
  (with_calls (calls w ++ [CIds ep h cur])%list w, Exc (list_ids_exn (r (CIds ep h cur)))).
Proof.
  intros Hc Hr. unfold list_ids, bind, remote_call. rewrite Hc.
  destruct (r (CIds ep h cur)) as [ids nc| | | |m] eqn:E; try reflexivity.
  exfalso. exact (Hr ids nc eq_refl).
Qed.

Lemma list_ids_noconn ep h cur r w :
  conn w = false -> list_ids ep h cur r w = (w, Exc AttributeError).
Proof. intros Hc. unfold list_ids, bind, remote_call. rewrite Hc. reflexivity. Qed.

Lemma world_eta (w : World) : w = mkWorld (cfg w) (conn w) (files w) (calls w) (out w).
Proof. destruct w; reflexivity. Qed.

Lemma files_same (w : World) p s :
  files w !! p = Some s ->
  w = mkWorld (cfg w) (conn w) (<[p := s +:+ EmptyString]> (files w)) (calls w ++ []) (out w).
Proof. intros Hf. rewrite str_app_nil_r, insert_id, app_nil_r by exact Hf. apply world_eta. Qed.

Lemma sync_pages_effect ep key r C b p :
  C !! key = Some p ->
  forall fuel c, exists res nc txt, forall w s,
    cfg w = C -> conn w = b -> files w !! p = Some s ->
    sync_pages ep key fuel c r w =
    (mkWorld (cfg w) (conn w) (<[p := s +:+ txt]> (files w)) (calls w ++ nc) (out w), res).
Proof.
  intros Hk fuel. induction fuel as [|fuel IH]; intros c.
  - exists (if Z.eqb c 0 then Ok tt else Exc Diverge), [], EmptyString.
    intros w s HC Hb Hf. simpl. rewrite <- (files_same w p s Hf).
    destruct (Z.eqb c 0); reflexivity.
  - destruct (Z.eqb c 0) eqn:Ec.
    { exists (Ok tt), [], EmptyString. intros w s HC Hb Hf. simpl. rewrite Ec.
      rewrite <- (files_same w p s Hf). reflexivity. }
    destruct (C !! "TWITTER_HANDLE") as [h|] eqn:Eh.
    2:{ exists (Exc (KeyError "TWITTER_HANDLE")), [], EmptyString. intros w s HC Hb Hf.
        simpl. rewrite Ec. rewrite <- (files_same w p s Hf).
        apply bind_exc. unfold cfg_get. rewrite HC, Eh. reflexivity. }
    destruct b.
    2:{ exists (Exc AttributeError), [], EmptyString. intros w s HC Hb Hf.
        simpl. rewrite Ec. rewrite <- (files_same w p s Hf).
        rewrite (bind_ok _ _ r w w h) by (unfold cfg_get; rewrite HC, Eh; reflexivity).
        apply bind_exc. apply list_ids_noconn, Hb. }
    destruct (r (CIds ep h (Some c))) as [ids nc'| | | |m] eqn:Er.
    1:{ destruct (IH nc') as (res & nc & txt & Hw).
        exists res, (CIds ep h (Some c) :: nc), (ids_text (py_set ids) +:+ txt).
        intros w s HC Hb Hf. simpl. rewrite Ec.
        rewrite (bind_ok _ _ r w w h) by (unfold cfg_get; rewrite HC, Eh; reflexivity).
        erewrite bind_ok by (apply list_ids_ok; eassumption). cbv beta iota.
        rewrite (bind_ok _ _ r _ _ p) by (unfold cfg_get; simpl; rewrite HC, Hk; reflexivity).
        erewrite bind_ok by (unfold open_ab; reflexivity).
        erewrite bind_ok.
        2:{ apply write_ids_spec with (s := s). simpl. rewrite lookup_insert_eq, Hf. reflexivity. }
        rewrite (Hw _ (s +:+ ids_text (py_set ids))); simpl; [| exact HC | exact Hb |].
        - rewrite str_app_assoc, !insert_insert_eq, <- app_assoc. reflexivity.
        - apply lookup_insert_eq. }
    all: exists (Exc (list_ids_exn (r (CIds ep h (Some c))))), [CIds ep h (Some c)], EmptyString;
      intros w s HC Hb Hf; simpl; rewrite Ec;
      rewrite (bind_ok _ _ r w w h) by (unfold cfg_get; rewrite HC, Eh; reflexivity);
      apply bind_exc; rewrite list_ids_bad by (first [exact Hb | intros ? ? E; congruence]);
      rewrite str_app_nil_r, insert_id by exact Hf; destruct w; reflexivity.
Qed.

Lemma sync_role_effect ep key fuel r C b :
  exists o res nc, forall w, cfg w = C -> conn w = b ->
    sync_role ep key fuel r w =
    (mkWorld (cfg w) (conn w) (upd_file o (files w)) (calls w ++ nc) (out w), res).
Proof.
  destruct (C !! "TWITTER_HANDLE") as [h|] eqn:Eh.
  2:{ exists None, (Exc (KeyError "TWITTER_HANDLE")), []. intros w HC Hb. simpl.
      rewrite app_nil_r, <- world_eta. unfold sync_role.
      apply bind_exc. unfold cfg_get. rewrite HC, Eh. reflexivity. }
  destruct b.
  2:{ exists None, (Exc AttributeError), []. intros w HC Hb. simpl.
      rewrite app_nil_r, <- world_eta. unfold sync_role.
      rewrite (bind_ok _ _ r w w h) by (unfold cfg_get; rewrite HC, Eh; reflexivity).
      apply bind_exc. apply list_ids_noconn, Hb. }
  destruct (r (CIds ep h None)) as [ids0 c0| | | |m] eqn:Er.
  1:{ destruct (C !! key) as [p|] eqn:Ek.
      2:{ exists None, (Exc (KeyError key)), [CIds ep h None]. intros w HC Hb. simpl.
          unfold sync_role.
          rewrite (bind_ok _ _ r w w h) by (unfold cfg_get; rewrite HC, Eh; reflexivity).
          erewrite bind_ok by (apply list_ids_ok; eassumption). cbv beta iota.
          apply bind_exc. unfold replace_ids. apply bind_exc. unfold cfg_get. simpl.
          rewrite HC, Ek. destruct w; simpl in *; subst; reflexivity. }
      destruct (sync_pages_effect ep key r C true p Ek fuel c0) as (res & nc & txt & Hw).
      exists (Some (p, ids_text (py_set ids0) +:+ txt)), res, (CIds ep h None :: nc).
      intros w HC Hb. simpl. unfold sync_role.
      rewrite (bind_ok _ _ r w w h) by (unfold cfg_get; rewrite HC, Eh; reflexivity).
      erewrite bind_ok by (apply list_ids_ok; eassumption). cbv beta iota.
      erewrite bind_ok by (apply replace_ids_spec; simpl; rewrite HC; exact Ek).
      rewrite (Hw _ (ids_text (py_set ids0))); simpl; [| exact HC | exact Hb | apply lookup_insert_eq].
      rewrite insert_insert_eq, <- app_assoc. reflexivity. }
  all: exists None, (Exc (list_ids_exn (r (CIds ep h None)))), [CIds ep h None];
    intros w HC Hb; simpl; unfold sync_role;
    rewrite (bind_ok _ _ r w w h) by (unfold cfg_get; rewrite HC, Eh; reflexivity);
    apply bind_exc; rewrite list_ids_bad by (first [exact Hb | intros ? ? E; congruence]);
    destruct w; reflexivity.
Qed.

Lemma upd_file_idem o f : upd_file o (upd_file o f) = upd_file o f.
Proof. destruct o as [[p t]|]; simpl; [apply insert_insert_eq | reflexivity]. Qed.

Lemma upd_file_twice o1 o2 f :
  upd_file o2 (upd_file o1 (upd_file o2 (upd_file o1 f))) = upd_file o2 (upd_file o1 f).
Proof.
  destruct o1 as [[p1 t1]|], o2 as [[p2 t2]|]; simpl;
    [| apply insert_insert_eq | apply insert_insert_eq | reflexivity].
  destruct (decide (p1 = p2)) as [<-|Hne].
  - rewrite !insert_insert_eq. reflexivity.
  - rewrite (insert_insert_ne (<[p1 := t1]> f) p1 p2 t1 t2 Hne), !insert_insert_eq. reflexivity.
Qed.

(** C6: [sync_follows] is idempotent on the local files: against the same
    remote (the same pages and cursors on both runs), a second run leaves
    every file, the followers and follows snapshots among them, with exactly
    the contents the first run left, whatever the first run raised. *)
Theorem sync_idempotent fuel r w :
  files (fst (sync_follows fuel r (fst (sync_follows fuel r w)))) =
  files (fst (sync_follows fuel r w)).
Proof.
  destruct (sync_role_effect EFollowers "FOLLOWERS_FILE" fuel r (cfg w) (conn w))
    as (o1 & res1 & nc1 & H1).
  destruct (sync_role_effect EFriends "FOLLOWS_FILE" fuel r (cfg w) (conn w))
    as (o2 & res2 & nc2 & H2).
  unfold sync_follows. destruct (decide (cfg w = ∅)) as [E|E].
  - rewrite (when_set_up_empty _ r w E). simpl.
    rewrite when_set_up_empty by exact E. reflexivity.
  - rewrite (when_set_up_ready _ r w E). unfold bind; cbv beta.
    rewrite H1 by reflexivity.
    destruct res1 as [[]|e1]; simpl.
    + unfold bind; cbv beta. rewrite H2 by reflexivity. simpl.
      destruct res2 as [[]|e2]; simpl;
        rewrite when_set_up_ready by exact E; unfold bind; cbv beta;
        rewrite H1 by reflexivity; simpl; unfold bind; cbv beta;
        rewrite H2 by reflexivity; simpl; apply upd_file_twice.
    + rewrite when_set_up_ready by exact E. unfold bind; cbv beta.
      rewrite H1 by reflexivity. simpl. apply upd_file_idem.
Qed.

(** ** C10: a failing sync *)

Lemma sync_pages_chain_err ep key r h p pages m : forall c fuel w s,
  cfg w !! "TWITTER_HANDLE" = Some h -> cfg w !! key = Some p -> conn w = true ->
  files w !! p = Some s ->
  cursor_chain_err r ep h c pages m -> length pages < fuel ->
  exists cs, sync_pages ep key fuel c r w =
  (mkWorld (cfg w) (conn w) (<[p := s +:+ pages_text pages]> (files w)) cs (out w),
   Exc (HTTPError m)).
Proof.
  induction pages as [|[ids c'] ps IH]; intros c fuel w s Hh Hk Hc Hf Hch Hlen;
    destruct fuel as [|fuel]; simpl in Hlen; try lia; simpl in Hch.
  - destruct Hch as (Hnz & Hr). exists (calls w ++ [CIds ep h (Some c)])%list.
    simpl. rewrite (proj2 (Z.eqb_neq c 0) Hnz).
    rewrite (bind_ok _ _ r w w h) by (unfold cfg_get; rewrite Hh; reflexivity).
    apply bind_exc. rewrite (list_ids_err ep h (Some c) m) by assumption.
    unfold pages_text. simpl. rewrite str_app_nil_r, insert_id by exact Hf. reflexivity.
  - destruct Hch as (Hnz & Hr & Hch).
    simpl. rewrite (proj2 (Z.eqb_neq c 0) Hnz).
    rewrite (bind_ok _ _ r w w h) by (unfold cfg_get; rewrite Hh; reflexivity).
    erewrite bind_ok by (apply list_ids_ok; eassumption). cbv beta iota.
    rewrite (bind_ok _ _ r _ _ p) by (unfold cfg_get; simpl; rewrite Hk; reflexivity).
    erewrite bind_ok by (unfold open_ab; reflexivity).
    erewrite bind_ok.
    2:{ apply write_ids_spec with (s := s). simpl. rewrite lookup_insert_eq, Hf. reflexivity. }
    match goal with
    | |- exists _, sync_pages _ _ _ _ _ ?w' = _ =>
        destruct (IH c' fuel w' (s +:+ ids_text (py_set ids))) as (cs & Hw)
    end.
    all: try solve [exact Hh | exact Hk | exact Hc | apply lookup_insert_eq | exact Hch | lia].
    exists cs. rewrite Hw. simpl.
    rewrite pages_text_cons, str_app_assoc, !insert_insert_eq. reflexivity.
Qed.

Lemma sync_role_err ep key fuel r h p pages m w :
  cfg w !! "TWITTER_HANDLE" = Some h -> cfg w !! key = Some p -> conn w = true ->
  listing_err r ep h pages m -> length pages <= fuel ->
  exists cs, sync_role ep key fuel r w =
  (mkWorld (cfg w) (conn w)
     (match pages with [] => files w | _ => <[p := pages_text pages]> (files w) end)
     cs (out w), Exc (HTTPError m)).
Proof.
  intros Hh Hk Hc Herr Hlen. unfold sync_role.
  rewrite (bind_ok _ _ r w w h) by (unfold cfg_get; rewrite Hh; reflexivity).
  destruct pages as [|[ids0 c0] ps]; simpl in Herr.
  - exists (calls w ++ [CIds ep h None])%list. apply bind_exc.
    rewrite (list_ids_err ep h None m) by assumption. reflexivity.
  - destruct Herr as (Hr & Hch). simpl in Hlen.
    erewrite bind_ok by (apply list_ids_ok; eassumption). cbv beta iota.
    erewrite bind_ok by (apply replace_ids_spec; simpl; exact Hk).
    match goal with
    | |- exists _, sync_pages _ _ _ _ _ ?w' = _ =>
        destruct (sync_pages_chain_err ep key r h p ps m c0 fuel w' (ids_text (py_set ids0)))
          as (cs & Hw)
    end.
    all: try solve [exact Hh | exact Hk | exact Hc | apply lookup_insert_eq | exact Hch | lia].
    exists cs. rewrite Hw. simpl.
    rewrite pages_text_cons, insert_insert_eq. reflexivity.
Qed.

(** the friends listing failing on the call after its first page: the
    error reaches the caller, the followers snapshot holds the fresh
    followers, and the follows snapshot, truncated by [open(..., "wb")],
    holds the fresh first page [3] instead of its prior content [9] *)
Lemma sync_follows_truncates_follows :
  snd (sync_follows 5 (split_sync_remote true) (demo_world [] [] [9]%Z)) =
    Exc (HTTPError "Rate limit exceeded") /\
  files (fst (sync_follows 5 (split_sync_remote true) (demo_world [] [] [9]%Z))) !! "followers.txt" =
    Some (ids_text [1; 2]%Z) /\
  files (demo_world [] [] [9]%Z) !! "follows.txt" = Some (ids_text [9]%Z) /\
  files (fst (sync_follows 5 (split_sync_remote true) (demo_world [] [] [9]%Z))) !! "follows.txt" =
    Some (ids_text [3]%Z) /\
  files (fst (sync_follows 5 (split_sync_remote true) (demo_world [] [] [9]%Z))) !! "follows.txt" <>
    files (demo_world [] [] [9]%Z) !! "follows.txt".
Proof.
  split; [vm_compute; reflexivity |]. split; [vm_compute; reflexivity |].
  split; [vm_compute; reflexivity |]. split; [vm_compute; reflexivity |].
  vm_compute. intros E. discriminate E.
Qed.

(** C10 (amended): [sync_follows] is not atomic across the two roles.  When
    the followers listing completes and the friends listing then raises [m],
    the error reaches the caller; the followers snapshot already holds the
    fresh followers; the follows snapshot keeps its prior content only if
    the very first friends call failed, and otherwise holds the friends
    pages fetched before the failing call, since [open(..., "wb")] ran after
    the first page; no other file changes.  (The two snapshot paths are
    distinct.) *)
Theorem sync_not_atomic fuel r w h pf pg ids0 c0 fol_pages fri_pages m :
  cfg w !! "TWITTER_HANDLE" = Some h -> cfg w !! "FOLLOWERS_FILE" = Some pf ->
  cfg w !! "FOLLOWS_FILE" = Some pg -> pf <> pg -> conn w = true ->
  r (CIds EFollowers h None) = RIds ids0 c0 -> cursor_chain r EFollowers h c0 fol_pages ->
  length fol_pages <= fuel ->
  listing_err r EFriends h fri_pages m -> length fri_pages <= fuel ->
  snd (sync_follows fuel r w) = Exc (HTTPError m) /\
  files (fst (sync_follows fuel r w)) !! pf =
    Some (ids_text (py_set ids0) +:+ pages_text fol_pages) /\
  files (fst (sync_follows fuel r w)) !! pg =
    match fri_pages with [] => files w !! pg | _ => Some (pages_text fri_pages) end /\
  (forall q, q <> pf -> q <> pg -> files (fst (sync_follows fuel r w)) !! q = files w !! q).
Proof.
  intros Hh Hf Hg Hne Hc Hr Hch Hlen Herr Hlen'.
  unfold sync_follows. rewrite (when_set_up_ready _ r w) by exact (cfg_nonempty w _ _ Hh).
  rewrite (bind_ok _ _ r w _ tt)
    by (apply (sync_role_chain EFollowers "FOLLOWERS_FILE" r h pf ids0 c0 fol_pages fuel w);
        assumption).
  cbv beta.
  match goal with
  | |- context [bind (sync_role EFriends "FOLLOWS_FILE" fuel) _ r ?w'] =>
      destruct (sync_role_err EFriends "FOLLOWS_FILE" fuel r h pg fri_pages m w') as (cs & Hw)
  end.
  all: try solve [exact Hh | exact Hg | exact Hc | exact Herr | exact Hlen'].
  rewrite (bind_exc _ _ r _ _ _ Hw). simpl.
  split; [reflexivity |].
  destruct fri_pages as [|pg1 ps]; simpl.
  - split; [apply lookup_insert_eq |]. split; [rewrite lookup_insert_ne by congruence; reflexivity |].
    intros q Hq1 Hq2. apply lookup_insert_ne. congruence.
  - split; [rewrite lookup_insert_ne, lookup_insert_eq by congruence; reflexivity |].
    split; [apply lookup_insert_eq |].
    intros q Hq1 Hq2. rewrite !lookup_insert_ne by congruence. reflexivity.
Qed.

(** both cases against the demo bot: the friends listing failing on its
    first call, and on the call after its first page *)
Lemma sync_not_atomic_witness :
  (snd (sync_follows 5 (split_sync_remote false) (demo_world [] [] [9]%Z)) =
     Exc (HTTPError "Rate limit exceeded") /\
   files (fst (sync_follows 5 (split_sync_remote false) (demo_world [] [] [9]%Z))) !! "followers.txt" =
     Some (ids_text (py_set [1; 2]%Z) +:+ pages_text []) /\
   files (fst (sync_follows 5 (split_sync_remote false) (demo_world [] [] [9]%Z))) !! "follows.txt" =
     files (demo_world [] [] [9]%Z) !! "follows.txt" /\
   (forall q, q <> "followers.txt" -> q <> "follows.txt" ->
      files (fst (sync_follows 5 (split_sync_remote false) (demo_world [] [] [9]%Z))) !! q =
      files (demo_world [] [] [9]%Z) !! q)) /\
  (snd (sync_follows 5 (split_sync_remote true) (demo_world [] [] [9]%Z)) =
     Exc (HTTPError "Rate limit exceeded") /\
   files (fst (sync_follows 5 (split_sync_remote true) (demo_world [] [] [9]%Z))) !! "followers.txt" =
     Some (ids_text (py_set [1; 2]%Z) +:+ pages_text []) /\
   files (fst (sync_follows 5 (split_sync_remote true) (demo_world [] [] [9]%Z))) !! "follows.txt" =
     Some (pages_text [([3]%Z, 7%Z)]) /\
   (forall q, q <> "followers.txt" -> q <> "follows.txt" ->
      files (fst (sync_follows 5 (split_sync_remote true) (demo_world [] [] [9]%Z))) !! q =
      files (demo_world [] [] [9]%Z) !! q)).
Proof.
  split.
  - apply (sync_not_atomic 5 (split_sync_remote false) (demo_world [] [] [9]%Z) "me"
             "followers.txt" "follows.txt" [1; 2]%Z 0 [] [] "Rate limit exceeded");
      first [vm_compute; reflexivity | discriminate | simpl; lia].
  - apply (sync_not_atomic 5 (split_sync_remote true) (demo_world [] [] [9]%Z) "me"
             "followers.txt" "follows.txt" [1; 2]%Z 0 [] [([3]%Z, 7%Z)] "Rate limit exceeded");
      first [vm_compute; reflexivity | discriminate | simpl; lia |
             simpl; split; [reflexivity | split; [lia | reflexivity]]].
Defined.

(* ------------------------------------------------------------------ *)
(** * Further properties of the code *)

(** ** Which computations keep the local files *)

Create HintDb keepdb.

Section Keeps.
Context {T : Type} (f : World -> T).

Lemma keeps_ret {A} (a : A) : keeps f (ret a).
Proof. intros r w. reflexivity. Qed.

Lemma keeps_raise {A} e : keeps f (@raise A e).
Proof. intros r w. reflexivity. Qed.

Lemma keeps_bind {A B} (m : M A) (k : A -> M B) :
  keeps f m -> (forall a, keeps f (k a)) -> keeps f (bind m k).
Proof.
  intros Hm Hk r w. unfold bind. specialize (Hm r w).
  destruct (m r w) as [w' [a|e]]; simpl in *; [rewrite Hk|]; exact Hm.
Qed.

Lemma keeps_mtry {A} (body : M A) h :
  keeps f body -> (forall e, keeps f (h e)) -> keeps f (mtry body h).
Proof.
  intros Hb Hh r w. unfold mtry. specialize (Hb r w).
  destruct (body r w) as [w' [a|e]]; simpl in *; [|rewrite Hh]; exact Hb.
Qed.

Lemma keeps_except_http {A} (body : M A) h :
  keeps f body -> (forall m, keeps f (h m)) -> keeps f (except_http body h).
Proof. intros Hb Hh. apply keeps_mtry; [exact Hb|]. intros []; auto using keeps_raise. Qed.

Lemma keeps_except_exception {A} (body : M A) h :
  keeps f body -> (forall e, keeps f (h e)) -> keeps f (except_exception body h).
Proof. intros Hb Hh. apply keeps_mtry; [exact Hb|]. intros []; auto using keeps_raise. Qed.

Lemma keeps_mfor {A} (l : list A) body :
  (forall x, keeps f (body x)) -> keeps f (mfor l body).
Proof.
  intros Hb. induction l as [|x l IH]; simpl; [apply keeps_ret | apply keeps_bind; auto].
Qed.

End Keeps.

Lemma keeps_files_get_cfg : keeps files get_cfg.
Proof. intros r w. reflexivity. Qed.

Lemma keeps_files_cfg_get k : keeps files (cfg_get k).
Proof. intros r w. unfold cfg_get. destruct (cfg w !! k); reflexivity. Qed.

Lemma keeps_files_print s : keeps files (print s).
Proof. intros r w. reflexivity. Qed.

Lemma keeps_files_remote_call c : keeps files (remote_call c).
Proof. intros r w. unfold remote_call. destruct (conn w), (r c); reflexivity. Qed.

Lemma keeps_files_read_file p : keeps files (read_file p).
Proof. intros r w. unfold read_file. destruct (files w !! p); reflexivity. Qed.

#[local] Hint Resolve keeps_ret keeps_raise keeps_files_get_cfg keeps_files_cfg_get
  keeps_files_print keeps_files_remote_call keeps_files_read_file : keepdb.

Lemma keeps_when_set_up {T} (f : World -> T) body :
  keeps f get_cfg -> keeps f (print not_set_up_msg) -> keeps f body -> keeps f (when_set_up body).
Proof.
  intros Hg Hp H. unfold when_set_up. apply keeps_bind; [exact Hg|].
  intros c. destruct (bool_decide _); [|exact H].
  apply keeps_bind; [exact Hp | intros; apply keeps_ret].
Qed.

Ltac keep_walk :=
  repeat match goal with
  | |- keeps _ (bind _ _) => apply keeps_bind; intros
  | |- keeps _ (except_http _ _) => apply keeps_except_http; intros
  | |- keeps _ (except_exception _ _) => apply keeps_except_exception; intros
  | |- keeps _ (mfor _ _) => apply keeps_mfor; intros
  | |- keeps _ (when_set_up _) => apply keeps_when_set_up
  | |- keeps _ (match ?x with _ => _ end) => destruct x
  | |- keeps _ (if ?b then _ else _) => destruct b
  | |- keeps _ _ => solve [eauto with keepdb]
  end.

Lemma keeps_files_parse_lines ls : keeps files (parse_lines ls).
Proof. induction ls as [|l ls IH]; simpl; keep_walk. Qed.

#[local] Hint Resolve keeps_files_parse_lines : keepdb.

Lemma keeps_files_small :
  (forall v, keeps files (as_set v)) /\ (forall v, keeps files (statuses_of v)) /\
  (forall v, keeps files (ids_of v)) /\ (forall v, keeps files (text_of v)) /\
  (forall k, keeps files (read_id_file k)).
Proof.
  unfold as_set, statuses_of, ids_of, text_of, read_id_file.
  repeat split; intros; keep_walk.
Qed.

#[local] Hint Extern 1 (keeps files (as_set _)) => apply keeps_files_small : keepdb.
#[local] Hint Extern 1 (keeps files (statuses_of _)) => apply keeps_files_small : keepdb.
#[local] Hint Extern 1 (keeps files (ids_of _)) => apply keeps_files_small : keepdb.
#[local] Hint Extern 1 (keeps files (text_of _)) => apply keeps_files_small : keepdb.
#[local] Hint Extern 1 (keeps files (read_id_file _)) => apply keeps_files_small : keepdb.

Lemma keeps_files_getters :
  keeps files get_do_not_follow_list /\ keeps files get_followers_list /\
  keeps files get_follows_list.
Proof.
  unfold get_do_not_follow_list, get_followers_list, get_follows_list. repeat split; keep_walk.
Qed.

#[local] Hint Extern 1 (keeps files get_do_not_follow_list) => apply keeps_files_getters : keepdb.
#[local] Hint Extern 1 (keeps files get_followers_list) => apply keeps_files_getters : keepdb.
#[local] Hint Extern 1 (keeps files get_follows_list) => apply keeps_files_getters : keepdb.

Lemma keeps_files_search q c t : keeps files (search_tweets q c t).
Proof. unfold search_tweets. keep_walk. Qed.

Lemma keeps_files_auto_follow_loop dnf following ts : keeps files (auto_follow_loop dnf following ts).
Proof.
  revert following. induction ts as [|t ts IH]; intros following; simpl; [keep_walk|].
  apply keeps_bind; [|exact IH].
  unfold follow_body, follow_handler. keep_walk.
Qed.

#[local] Hint Resolve keeps_files_search keeps_files_auto_follow_loop : keepdb.


(** ** The snapshot loaders *)







(** ** Favorites and retweets *)

Section StatusLoop.
Variables (mk : Z -> Call) (pre : string) (hdl : string -> M unit)
  (hout : string -> list string).
Hypothesis Hhdl : forall m r w, hdl m r w = (with_out (out w ++ hout m)%list w, Ok tt).

Lemma status_step h tw r w :
  cfg w !! "TWITTER_HANDLE" = Some h -> conn w = true ->
  text_or_err (r (mk (tweet_id tw))) = true ->
  except_http
    (do h <- cfg_get "TWITTER_HANDLE";
     if String.eqb (user_screen_name tw) h then ret tt else
     do resp <- remote_call (mk (tweet_id tw));
     do txt <- text_of resp;
     print (pre +:+ txt)) hdl r w =
  (mkWorld (cfg w) (conn w) (files w)
     (calls w ++ if String.eqb (user_screen_name tw) h then [] else [mk (tweet_id tw)])
     (out w ++ if String.eqb (user_screen_name tw) h then []
               else remote_report pre hout (r (mk (tweet_id tw)))), Ok tt).
Proof.
  intros Hh Hc Ht. unfold except_http, mtry, bind at 1, cfg_get. rewrite Hh.
  destruct (String.eqb (user_screen_name tw) h).
  - rewrite !app_nil_r. destruct w; reflexivity.
  - unfold bind, remote_call. rewrite Hc.
    destruct (r (mk (tweet_id tw))) as [| | t | | m]; try discriminate Ht.
    + destruct w; simpl in *; subst; reflexivity.
    + rewrite Hhdl. destruct w; simpl in *; subst; reflexivity.
Qed.

Lemma status_loop h ts r w :
  cfg w !! "TWITTER_HANDLE" = Some h -> conn w = true ->
  (forall tw, In tw ts -> text_or_err (r (mk (tweet_id tw))) = true) ->
  mfor ts (fun tweet =>
    except_http
      (do h <- cfg_get "TWITTER_HANDLE";
       if String.eqb (user_screen_name tweet) h then ret tt else
       do resp <- remote_call (mk (tweet_id tweet));
       do txt <- text_of resp;
       print (pre +:+ txt)) hdl) r w =
  (mkWorld (cfg w) (conn w) (files w)
     (calls w ++ map (fun tw => mk (tweet_id tw)) (others_tweets h ts))
     (out w ++ concat (map (fun tw => remote_report pre hout (r (mk (tweet_id tw))))
                         (others_tweets h ts))), Ok tt).
Proof.
  revert w. induction ts as [|tw ts IH]; intros w Hh Hc Ht; simpl.
  - rewrite !app_nil_r. destruct w; reflexivity.
  - rewrite (bind_ok _ _ r w _ tt) by (apply status_step; first [exact Hh | exact Hc | apply Ht; left; reflexivity]).
    rewrite IH by (first [exact Hh | exact Hc | intros tw' Hin; apply Ht; right; exact Hin]).
    simpl. unfold others_tweets. simpl.
    destruct (String.eqb (user_screen_name tw) h); simpl;
      rewrite <- !app_assoc; reflexivity.
Qed.

End StatusLoop.

(** [auto_fav] on a set-up bot whose search answers the tweets [ts]:
    after the one search call, it asks to favorite every tweet not written
    by the bot's own handle, in order, each once, going on past every
    remote error; it prints [favorited: <text>] for each success and
    [error: <message>] for each error, except the errors whose message
    contains "you have already favorited this status" (in any case), which
    are passed over silently.  No file changes. *)
Theorem auto_fav_favorites_others q c t h ts r w :
  cfg w !! "TWITTER_HANDLE" = Some h -> conn w = true -> r (CSearch q c t) = RStatuses ts ->
  (forall tw, In tw ts -> text_or_err (r (CFavCreate (tweet_id tw))) = true) ->
  auto_fav q c t r w =
  (mkWorld (cfg w) (conn w) (files w)
     (calls w ++ CSearch q c t :: map (fun tw => CFavCreate (tweet_id tw)) (others_tweets h ts))
     (out w ++ concat (map (fun tw =>
        remote_report "favorited: "
          (fun m => if negb (contains "you have already favorited this status" (lower m))
                    then ["error: " +:+ m] else [])
          (r (CFavCreate (tweet_id tw)))) (others_tweets h ts))), Ok VNone).
Proof.
  intros Hh Hc Hs Ht. unfold auto_fav.
  rewrite when_set_up_ready by exact (cfg_nonempty w _ _ Hh).
  rewrite (bind_ok _ _ r w (with_calls (calls w ++ [CSearch q c t])%list w) (VResp (RStatuses ts))).
  2:{ unfold search_tweets. rewrite when_set_up_ready by exact (cfg_nonempty w _ _ Hh).
      unfold bind, remote_call, ret. rewrite Hc, Hs. reflexivity. }
  rewrite (bind_ok _ _ r _ _ ts) by reflexivity.
  erewrite bind_ok.
  2:{ apply (status_loop CFavCreate "favorited: " _
               (fun m => if negb (contains "you have already favorited this status" (lower m))
                         then ["error: " +:+ m] else [])); [| exact Hh | exact Hc | exact Ht].
      intros m r' w'. destruct (negb _); [reflexivity|]. rewrite app_nil_r. destruct w'; reflexivity. }
  simpl. rewrite <- app_assoc. reflexivity.
Qed.

Lemma auto_fav_favorites_others_witness :
  auto_fav "rocq" 100 "recent"
    (fun c => match c with
              | CSearch _ _ _ => RStatuses [demo_tweet 1 "alice"; demo_tweet 2 "me"; demo_tweet 3 "bob"]
              | CFavCreate 1 => RErr "You have already favorited this status."
              | CFavCreate _ => RText "hello"
              | _ => RDone
              end) (demo_world [] [] []) =
  (mkWorld (cfg (demo_world [] [] [])) (conn (demo_world [] [] [])) (files (demo_world [] [] []))
     (calls (demo_world [] [] []) ++ CSearch "rocq" 100 "recent" ::
        map (fun tw => CFavCreate (tweet_id tw))
          (others_tweets "me" [demo_tweet 1 "alice"; demo_tweet 2 "me"; demo_tweet 3 "bob"]))
     (out (demo_world [] [] []) ++ concat (map (fun tw =>
        remote_report "favorited: "
          (fun m => if negb (contains "you have already favorited this status" (lower m))
                    then ["error: " +:+ m] else [])
          ((fun c => match c with
              | CSearch _ _ _ => RStatuses [demo_tweet 1 "alice"; demo_tweet 2 "me"; demo_tweet 3 "bob"]
              | CFavCreate 1 => RErr "You have already favorited this status."
              | CFavCreate _ => RText "hello"
              | _ => RDone
              end) (CFavCreate (tweet_id tw))))
        (others_tweets "me" [demo_tweet 1 "alice"; demo_tweet 2 "me"; demo_tweet 3 "bob"]))),
   Ok VNone).
Proof.
  apply auto_fav_favorites_others.
  - vm_compute. reflexivity.
  - reflexivity.
  - reflexivity.
  - simpl. intros tw [<-|[<-|[<-|[]]]]; reflexivity.
Defined.

(** [auto_rt] on a set-up bot whose search answers the tweets [ts]: after
    the one search call, it asks to retweet every tweet not written by the
    bot's own handle, in order, each once, going on past every remote
    error; it prints [retweeted: <text>] for each success and
    [error: <message>] for every error.  No file changes. *)
Theorem auto_rt_retweets_others q c t h ts r w :
  cfg w !! "TWITTER_HANDLE" = Some h -> conn w = true -> r (CSearch q c t) = RStatuses ts ->
  (forall tw, In tw ts -> text_or_err (r (CRetweet (tweet_id tw))) = true) ->
  auto_rt q c t r w =
  (mkWorld (cfg w) (conn w) (files w)
     (calls w ++ CSearch q c t :: map (fun tw => CRetweet (tweet_id tw)) (others_tweets h ts))
     (out w ++ concat (map (fun tw =>
        remote_report "retweeted: " (fun m => ["error: " +:+ m])
          (r (CRetweet (tweet_id tw)))) (others_tweets h ts))), Ok VNone).
Proof.
  intros Hh Hc Hs Ht. unfold auto_rt.
  rewrite when_set_up_ready by exact (cfg_nonempty w _ _ Hh).
  rewrite (bind_ok _ _ r w (with_calls (calls w ++ [CSearch q c t])%list w) (VResp (RStatuses ts))).
  2:{ unfold search_tweets. rewrite when_set_up_ready by exact (cfg_nonempty w _ _ Hh).
      unfold bind, remote_call, ret. rewrite Hc, Hs. reflexivity. }
  rewrite (bind_ok _ _ r _ _ ts) by reflexivity.
  erewrite bind_ok.
  2:{ apply (status_loop CRetweet "retweeted: " _ (fun m => ["error: " +:+ m]));
        [| exact Hh | exact Hc | exact Ht].
      intros m r' w'. reflexivity. }
  simpl. rewrite <- app_assoc. reflexivity.
Qed.

Lemma auto_rt_retweets_others_witness :
  auto_rt "rocq" 100 "recent"
    (fun c => match c with
              | CSearch _ _ _ => RStatuses [demo_tweet 1 "alice"; demo_tweet 2 "me"]
              | CRetweet _ => RErr "Rate limit exceeded"
              | _ => RDone
              end) (demo_world [] [] []) =
  (mkWorld (cfg (demo_world [] [] [])) (conn (demo_world [] [] [])) (files (demo_world [] [] []))
     (calls (demo_world [] [] []) ++ CSearch "rocq" 100 "recent" ::
        map (fun tw => CRetweet (tweet_id tw))
          (others_tweets "me" [demo_tweet 1 "alice"; demo_tweet 2 "me"]))
     (out (demo_world [] [] []) ++ concat (map (fun tw =>
        remote_report "retweeted: " (fun m => ["error: " +:+ m])
          ((fun c => match c with
              | CSearch _ _ _ => RStatuses [demo_tweet 1 "alice"; demo_tweet 2 "me"]
              | CRetweet _ => RErr "Rate limit exceeded"
              | _ => RDone
              end) (CRetweet (tweet_id tw))))
        (others_tweets "me" [demo_tweet 1 "alice"; demo_tweet 2 "me"]))),
   Ok VNone).
Proof.
  apply auto_rt_retweets_others.
  - vm_compute. reflexivity.
  - reflexivity.
  - reflexivity.
  - simpl. intros tw [<-|[<-|[]]]; reflexivity.
Defined.

(** ** Follow-matching never follows twice *)

Lemma read_id_file_same k r w w' L :
  cfg w' = cfg w -> files w' = files w ->
  read_id_file k r w = (w, Ok L) -> read_id_file k r w' = (w', Ok L).
Proof.
  intros Hc Hf. unfold read_id_file, bind, cfg_get. rewrite Hc.
  destruct (cfg w !! k) as [p|]; [|discriminate]. cbv beta iota.
  unfold read_file. rewrite Hf.
  destruct (files w !! p) as [s|]; [|discriminate]. cbv beta iota.
  assert (Hpl : forall ls w0, parse_lines ls r w0 = (w0, snd (parse_lines ls r w))).
  { induction ls as [|l ls IH]; intros w0; simpl; [reflexivity|].
    destruct (py_int l); [|reflexivity]. unfold bind. rewrite (IH w0), (IH w).
    destruct (snd (parse_lines ls r w)); reflexivity. }
  rewrite (Hpl _ w), (Hpl _ w'). destruct (snd (parse_lines (file_lines s) r w)); [|discriminate].
  intros H. injection H as <-. reflexivity.
Qed.

Lemma follow_body_ok dnf following tw h r w :
  cfg w !! "TWITTER_HANDLE" = Some h -> conn w = true ->
  (forall m, r (CFriendCreate (user_id tw)) <> RErr m) ->
  follow_body dnf following tw r w =
  if negb (String.eqb (user_screen_name tw) h) &&
     negb (py_mem (user_id tw) following) && negb (py_mem (user_id tw) dnf)
  then (with_out (out w ++ ["followed " +:+ user_screen_name tw])%list
          (with_calls (calls w ++ [CFriendCreate (user_id tw)])%list w),
        Ok (py_set (following ++ [user_id tw])%list))
  else (w, Ok following).
Proof.
  intros Hh Hc Hr. unfold follow_body, bind at 1, cfg_get. rewrite Hh.
  destruct (_ && _); [|reflexivity].
  unfold bind, remote_call. rewrite Hc.
  destruct (r (CFriendCreate (user_id tw))) eqn:E; try reflexivity.
  exfalso. eapply Hr. reflexivity.
Qed.

Lemma auto_follow_loop_ok dnf h ts : forall following r w,
  cfg w !! "TWITTER_HANDLE" = Some h -> conn w = true ->
  (forall u m, r (CFriendCreate u) <> RErr m) ->
  exists us o, auto_follow_loop dnf following ts r w =
    (mkWorld (cfg w) (conn w) (files w) (calls w ++ map CFriendCreate us) o, Ok tt) /\
    List.NoDup us /\
    forall x, In x us <->
      (exists tw, In tw ts /\ String.eqb (user_screen_name tw) h = false /\ user_id tw = x) /\
      ~ In x following /\ ~ In x dnf.
Proof.
  induction ts as [|tw ts IH]; intros following r w Hh Hc Hr.
  - exists [], (out w). split; [rewrite app_nil_r; destruct w; reflexivity|].
    split; [constructor|]. intros x. split; [intros []|intros ((tw & [] & _) & _)].
  - simpl. unfold bind at 1, except_http, mtry.
    rewrite (follow_body_ok dnf following tw h r w Hh Hc (Hr (user_id tw))).
    pose proof (py_mem_In (user_id tw) following) as Mf.
    pose proof (py_mem_In (user_id tw) dnf) as Md.
    destruct (String.eqb (user_screen_name tw) h) eqn:En,
             (py_mem (user_id tw) following) eqn:Ef,
             (py_mem (user_id tw) dnf) eqn:Ed; simpl.
    (* the cases where [tw] is skipped *)
    all: try (destruct (IH following r w Hh Hc Hr) as (us & o & Hrun & Hnd & Hin);
              exists us, o; split; [exact Hrun|]; split; [exact Hnd|];
              intros x; rewrite Hin; split;
              [ intros ((tw' & H1 & H2 & H3) & H4 & H5); split; [|tauto];
                exists tw'; simpl; tauto
              | intros ((tw' & [<-|H1] & H2 & H3) & H4 & H5);
                [ exfalso; subst x;
                  first [ congruence | apply H4, Mf; reflexivity | apply H5, Md; reflexivity ]
                | split; [exists tw'; tauto | tauto] ] ]).
    (* the followed case *)
    destruct (IH (py_set (following ++ [user_id tw])%list) r
                 (with_out (out w ++ ["followed " +:+ user_screen_name tw])%list
                    (with_calls (calls w ++ [CFriendCreate (user_id tw)])%list w)) Hh Hc Hr)
      as (us & o & Hrun & Hnd & Hin).
    exists (user_id tw :: us), o. split.
    + refine (eq_trans Hrun _). simpl. rewrite <- app_assoc. reflexivity.
    + assert (Hnf : ~ In (user_id tw) following) by (intros H; apply Mf in H; discriminate).
      assert (Hnd' : ~ In (user_id tw) dnf) by (intros H; apply Md in H; discriminate).
      split.
      * constructor; [|exact Hnd]. rewrite Hin. intros (_ & H & _). apply H.
        apply py_set_In, in_app_iff. right. left. reflexivity.
      * intros x. simpl. rewrite Hin, py_set_In, in_app_iff. simpl. split.
        -- intros [<-|((tw' & H1 & H2 & H3) & H4 & H5)].
           ++ split; [exists tw; auto | auto].
           ++ split; [exists tw'; auto | tauto].
        -- intros ((tw' & [<-|H1] & H2 & H3) & H4 & H5); [left; exact H3|].
           destruct (Z.eq_dec (user_id tw) x) as [E|E]; [left; exact E|right].
           split; [exists tw'; auto|]. split; [|exact H5]. intros [H|[H|[]]]; auto.
Qed.

(** [auto_follow] on a set-up bot whose search answers the tweets [ts],
    with the follows snapshot [F] and the already-followed snapshot [D],
    when no follow request fails: after the one search call it sends one
    follow request per user [u] that wrote one of the tweets not written by
    the bot's own handle, with [u] neither in [F] nor in [D], and never two
    for the same user, even when that user wrote several of the tweets (the
    [following] set grows as it goes); no file changes. *)
Theorem auto_follow_follows_each_once q c t h ts r w F D :
  cfg w !! "TWITTER_HANDLE" = Some h -> conn w = true -> r (CSearch q c t) = RStatuses ts ->
  read_id_file "FOLLOWS_FILE" r w = (w, Ok F) ->
  read_id_file "ALREADY_FOLLOWED_FILE" r w = (w, Ok D) ->
  (forall u m, r (CFriendCreate u) <> RErr m) ->
  exists us w', auto_follow q c t r w = (w', Ok VNone) /\ files w' = files w /\
    calls w' = (calls w ++ CSearch q c t :: map CFriendCreate us)%list /\
    List.NoDup us /\
    forall x, In x us <->
      (exists tw, In tw ts /\ String.eqb (user_screen_name tw) h = false /\ user_id tw = x) /\
      ~ In x F /\ ~ In x D.
Proof.
  intros Hh Hc Hs HF HD Hr.
  pose proof (cfg_nonempty w _ _ Hh) as Hne.
  set (w1 := with_calls (calls w ++ [CSearch q c t])%list w).
  unfold auto_follow. rewrite when_set_up_ready by exact Hne.
  rewrite (bind_ok _ _ r w w1 (VResp (RStatuses ts))).
  2:{ unfold search_tweets. rewrite when_set_up_ready by exact Hne.
      unfold bind, remote_call, ret. rewrite Hc, Hs. reflexivity. }
  rewrite (bind_ok _ _ r w1 w1 (VSet F)).
  2:{ apply (getter_set _ "FOLLOWS_FILE"); [simpl; tauto | exact Hne |].
      apply (read_id_file_same _ _ w); [reflexivity | reflexivity | exact HF]. }
  rewrite (bind_ok _ _ r w1 w1 F) by reflexivity.
  rewrite (bind_ok _ _ r w1 w1 (VSet D)).
  2:{ apply (getter_set _ "ALREADY_FOLLOWED_FILE"); [simpl; tauto | exact Hne |].
      apply (read_id_file_same _ _ w); [reflexivity | reflexivity | exact HD]. }
  rewrite (bind_ok _ _ r w1 w1 D) by reflexivity.
  rewrite (bind_ok _ _ r w1 w1 ts) by reflexivity.
  destruct (auto_follow_loop_ok D h ts F r w1 Hh Hc Hr) as (us & o & Hrun & Hnd & Hin).
  rewrite (bind_ok _ _ r w1 _ tt Hrun).
  eexists us, _. split; [reflexivity|]. split; [reflexivity|].
  split; [simpl; rewrite <- app_assoc; reflexivity|]. split; [exact Hnd | exact Hin].
Qed.

Lemma auto_follow_follows_each_once_witness :
  exists us w', auto_follow "rocq" 100 "recent"
      (fun c => match c with
                | CSearch _ _ _ => RStatuses [demo_tweet 1 "alice"; demo_tweet 2 "me";
                                              demo_tweet 1 "alice"; demo_tweet 3 "bob"]
                | _ => RDone
                end) (demo_world [] [] [3]%Z) = (w', Ok VNone) /\
    files w' = files (demo_world [] [] [3]%Z) /\
    calls w' = (calls (demo_world [] [] [3]%Z) ++ CSearch "rocq" 100 "recent" ::
                map CFriendCreate us)%list /\
    List.NoDup us /\
    forall x, In x us <->
      (exists tw, In tw [demo_tweet 1 "alice"; demo_tweet 2 "me";
                         demo_tweet 1 "alice"; demo_tweet 3 "bob"] /\
                  String.eqb (user_screen_name tw) "me" = false /\ user_id tw = x) /\
      ~ In x [3]%Z /\ ~ In x [].
Proof.
  apply auto_follow_follows_each_once.
  - vm_compute. reflexivity.
  - reflexivity.
  - reflexivity.
  - vm_compute. reflexivity.
  - vm_compute. reflexivity.
  - intros u m. simpl. discriminate.
Defined.

(** ** Following the followers of a user *)

Lemma nodup_length_le (l : list Z) : length (List.nodup Z.eq_dec l) <= length l.
Proof.
  induction l as [|x l IH]; simpl; [lia|].
  destruct (in_dec Z.eq_dec x l); simpl; lia.
Qed.

Lemma filter_length_le' {A} (f : A -> bool) (l : list A) : length (List.filter f l) <= length l.
Proof. induction l as [|x l IH]; simpl; [lia|]. destruct (f x); simpl; lia. Qed.

Lemma not_mem_both x (F D : list Z) :
  negb (py_mem x F) && negb (py_mem x D) = true <-> ~ In x F /\ ~ In x D.
Proof.
  pose proof (py_mem_In x F) as Mf. pose proof (py_mem_In x D) as Md.
  rewrite andb_true_iff, !negb_true_iff.
  destruct (py_mem x F), (py_mem x D); intuition congruence.
Qed.

Lemma followers_of_loop (F D : list Z) l r w :
  conn w = true ->
  exists o, mfor l (fun uid =>
    except_http
      (if negb (py_mem uid F) && negb (py_mem uid D) then
         do _ <- remote_call (CFriendCreate uid);
         print ("followed " +:+ py_str uid)
       else ret tt)
      (fun m => print ("error: " +:+ m))) r w =
  (mkWorld (cfg w) (conn w) (files w)
     (calls w ++ map CFriendCreate (List.filter (fun uid => negb (py_mem uid F) && negb (py_mem uid D)) l))
     o, Ok tt).
Proof.
  revert w. induction l as [|x l IH]; intros w Hc; simpl.
  - exists (out w). rewrite app_nil_r. destruct w; reflexivity.
  - destruct (negb (py_mem x F) && negb (py_mem x D)).
    + set (w1 := with_calls (calls w ++ [CFriendCreate x])%list w).
      set (w2 := with_out (out w1 ++ [match r (CFriendCreate x) with
                                        | RErr m => "error: " +:+ m
                                        | _ => "followed " +:+ py_str x end])%list w1).
      rewrite (bind_ok _ _ r w w2 tt).
      2:{ unfold except_http, mtry, bind, remote_call. rewrite Hc.
          subst w2 w1. destruct (r (CFriendCreate x)); reflexivity. }
      destruct (IH w2 Hc) as (o & Ho). exists o. refine (eq_trans Ho _). simpl.
      rewrite <- app_assoc. reflexivity.
    + rewrite (bind_ok _ _ r w w tt) by reflexivity.
      destruct (IH w Hc) as (o & Ho). exists o. exact Ho.
Qed.

Lemma followers_of_user_run u count r w F D ids nc :
  cfg w <> ∅ -> conn w = true ->
  read_id_file "FOLLOWS_FILE" r w = (w, Ok F) ->
  read_id_file "ALREADY_FOLLOWED_FILE" r w = (w, Ok D) ->
  r (CIds EFollowers u None) = RIds ids nc ->
  exists us w', auto_follow_followers_of_user u count r w = (w', Ok VNone) /\
    files w' = files w /\
    calls w' = (calls w ++ CIds EFollowers u None :: map CFriendCreate us)%list /\
    List.NoDup us /\
    (forall x, In x us <-> In x (py_slice_to ids count) /\ ~ In x F /\ ~ In x D) /\
    ((0 <= count)%Z -> length us <= Z.to_nat count).
Proof.
  intros Hne Hc HF HD Hr.
  set (w1 := with_calls (calls w ++ [CIds EFollowers u None])%list w).
  unfold auto_follow_followers_of_user. rewrite when_set_up_ready by exact Hne.
  rewrite (bind_ok _ _ r w w (VSet F)) by (apply (getter_set _ "FOLLOWS_FILE"); simpl; tauto).
  rewrite (bind_ok _ _ r w w F) by reflexivity.
  rewrite (bind_ok _ _ r w w1 (RIds ids nc)) by (unfold remote_call; rewrite Hc, Hr; reflexivity).
  rewrite (bind_ok _ _ r w1 w1 ids) by reflexivity.
  cbv zeta.
  rewrite (bind_ok _ _ r w1 w1 (VSet D)).
  2:{ apply (getter_set _ "ALREADY_FOLLOWED_FILE"); [simpl; tauto | exact Hne |].
      apply (read_id_file_same _ _ w); [reflexivity | reflexivity | exact HD]. }
  rewrite (bind_ok _ _ r w1 w1 D) by reflexivity.
  destruct (followers_of_loop F D (py_set (py_slice_to ids count)) r w1 Hc) as (o & Ho).
  rewrite (bind_ok _ _ r w1 _ tt Ho).
  eexists _, _. split; [reflexivity|]. split; [reflexivity|].
  split; [simpl; rewrite <- app_assoc; reflexivity|]. split; [|split].
  - apply List.NoDup_filter, py_set_nodup.
  - intros x. rewrite filter_In, py_set_In, not_mem_both. reflexivity.
  - intros Hcount.
    etransitivity; [apply filter_length_le'|]. etransitivity; [apply nodup_length_le|].
    unfold py_slice_to. rewrite (proj2 (Z.leb_le 0 count) Hcount).
    rewrite length_firstn. lia.
Qed.

(** [auto_follow_followers_of_user u count] on a set-up bot with the
    follows snapshot [F] and the already-followed snapshot [D], when the
    remote lists the ids [ids] as [u]'s followers: after that one listing
    call it sends one follow request for each distinct identifier of
    [ids[:count]] that is neither in [F] nor in [D], and no other, going on
    past every remote error; for a non-negative [count] there are at most
    [count] requests.  No file changes. *)
Theorem followers_of_user_follows u count r w F D ids nc :
  cfg w <> ∅ -> conn w = true ->
  read_id_file "FOLLOWS_FILE" r w = (w, Ok F) ->
  read_id_file "ALREADY_FOLLOWED_FILE" r w = (w, Ok D) ->
  r (CIds EFollowers u None) = RIds ids nc ->
  exists us w', auto_follow_followers_of_user u count r w = (w', Ok VNone) /\
    files w' = files w /\
    calls w' = (calls w ++ CIds EFollowers u None :: map CFriendCreate us)%list /\
    List.NoDup us /\
    (forall x, In x us <-> In x (py_slice_to ids count) /\ ~ In x F /\ ~ In x D) /\
    ((0 <= count)%Z -> length us <= Z.to_nat count).
Proof. apply followers_of_user_run. Qed.

Lemma followers_of_user_follows_witness :
  exists us w', auto_follow_followers_of_user "carol" 3
      (fun c => match c with
                | CIds EFollowers "carol" None => RIds [5; 6; 5; 7; 8]%Z 0
                | CFriendCreate _ => RErr "Rate limit exceeded"
                | _ => RDone
                end) (demo_world [] [] [6]%Z) = (w', Ok VNone) /\
    files w' = files (demo_world [] [] [6]%Z) /\
    calls w' = (calls (demo_world [] [] [6]%Z) ++ CIds EFollowers "carol" None ::
                map CFriendCreate us)%list /\
    List.NoDup us /\
    (forall x, In x us <-> In x (py_slice_to [5; 6; 5; 7; 8]%Z 3) /\ ~ In x [6]%Z /\ ~ In x []) /\
    ((0 <= 3)%Z -> length us <= Z.to_nat 3).
Proof.
  apply (followers_of_user_follows "carol" 3 _ (demo_world [] [] [6]%Z) [6]%Z [] [5; 6; 5; 7; 8]%Z 0).
  - vm_compute. discriminate.
  - reflexivity.
  - vm_compute. reflexivity.
  - vm_compute. reflexivity.
  - reflexivity.
Defined.

(** ** Unfollowing the non-followers *)

Lemma parse_lines_world ls r w : parse_lines ls r w = (w, snd (parse_lines ls r w)).
Proof.
  induction ls as [|l ls IH]; simpl; [reflexivity|].
  destruct (py_int l); [|reflexivity]. unfold bind. rewrite IH.
  destruct (snd (parse_lines ls r w)); reflexivity.
Qed.

Lemma read_id_file_inv k r w w' L :
  read_id_file k r w = (w', Ok L) ->
  exists p s l, cfg w !! k = Some p /\ files w !! p = Some s /\
    parse_lines (file_lines s) r w = (w, Ok l) /\ py_set l = L /\ w' = w.
Proof.
  unfold read_id_file, bind, cfg_get.
  destruct (cfg w !! k) as [p|] eqn:Hp; [|discriminate]. cbv beta iota.
  unfold read_file. destruct (files w !! p) as [s|] eqn:Hs; [|discriminate]. cbv beta iota.
  pose proof (parse_lines_world (file_lines s) r w) as Hw.
  destruct (parse_lines (file_lines s) r w) as [w0 [l|e]] eqn:E; injection Hw as ->;
    [|discriminate].
  intros H. injection H as <- <-. exists p, s, l. repeat split; first [assumption | reflexivity].
Qed.

Lemma unfollow_loop_ok K l r w :
  conn w = true -> (forall u m, r (CFriendDestroy u) <> RErr m) ->
  exists o, unfollow_loop K l r w =
    (mkWorld (cfg w) (conn w) (files w)
       (calls w ++ map CFriendDestroy (List.filter (fun uid => negb (py_mem uid K)) l)) o, Ok tt).
Proof.
  intros Hc Hr. unfold unfollow_loop. revert w Hc.
  induction l as [|x l IH]; intros w Hc; simpl.
  - exists (out w). rewrite app_nil_r. destruct w; reflexivity.
  - destruct (negb (py_mem x K)).
    + set (w1 := with_calls (calls w ++ [CFriendDestroy x])%list w).
      set (w2 := with_out (out w1 ++ ["unfollowed " +:+ py_str x])%list w1).
      rewrite (bind_ok _ _ r w w2 tt).
      2:{ unfold bind, remote_call, print. rewrite Hc.
          destruct (r (CFriendDestroy x)) eqn:E; try reflexivity.
          exfalso. exact (Hr x _ E). }
      destruct (IH w2 Hc) as (o & Ho). exists o. refine (eq_trans Ho _). simpl.
      rewrite <- app_assoc. reflexivity.
    + rewrite (bind_ok _ _ r w w tt) by reflexivity.
      destruct (IH w Hc) as (o & Ho). exists o. exact Ho.
Qed.

Lemma keeps_files_unfollow_loop K l : keeps files (unfollow_loop K l).
Proof. unfold unfollow_loop. keep_walk. Qed.

Lemma unfollow_run K r w pA F W L :
  cfg w !! "ALREADY_FOLLOWED_FILE" = Some pA -> conn w = true ->
  read_id_file "FOLLOWS_FILE" r w = (w, Ok F) ->
  read_id_file "FOLLOWERS_FILE" r w = (w, Ok W) ->
  read_id_file "ALREADY_FOLLOWED_FILE" r w = (w, Ok L) ->
  files (fst (auto_unfollow_nonfollowers_keep K r w)) =
    <[pA := ids_text (py_set (py_set (py_diff F W) ++ L))]> (files w) /\
  List.NoDup (py_set (py_set (py_diff F W) ++ L)) /\
  (forall x, In x (py_set (py_set (py_diff F W) ++ L)) <-> (In x F /\ ~ In x W) \/ In x L) /\
  read_id_file "ALREADY_FOLLOWED_FILE" r (fst (auto_unfollow_nonfollowers_keep K r w)) =
    (fst (auto_unfollow_nonfollowers_keep K r w), Ok (py_set (py_set (py_diff F W) ++ L))) /\
  ((forall u m, r (CFriendDestroy u) <> RErr m) ->
   snd (auto_unfollow_nonfollowers_keep K r w) = Ok VNone /\
   calls (fst (auto_unfollow_nonfollowers_keep K r w)) =
     (calls w ++ map CFriendDestroy (List.filter (fun uid => negb (py_mem uid K)) (py_diff F W)))%list).
Proof.
  intros Hp Hc HF HW HL.
  pose proof (cfg_nonempty w _ _ Hp) as Hne.
  destruct (read_id_file_inv _ _ _ _ _ HL) as (p' & s & l & Hp' & Hs & Hl & <- & _).
  rewrite Hp in Hp'. injection Hp' as <-.
  set (A := py_set (py_set (py_diff F W) ++ py_set l)).
  set (w2 := with_files (<[pA := ids_text A]> (files w)) w).
  assert (Hrun : auto_unfollow_nonfollowers_keep K r w =
                 bind (unfollow_loop K (py_diff F W)) (fun _ => ret VNone) r w2).
  { unfold auto_unfollow_nonfollowers_keep. rewrite when_set_up_ready by exact Hne.
    rewrite (bind_ok _ _ r w w (VSet F))
      by (apply (getter_set _ "FOLLOWS_FILE"); [simpl; tauto | exact Hne | exact HF]).
    rewrite (bind_ok _ _ r w w F) by reflexivity.
    rewrite (bind_ok _ _ r w w (VSet W))
      by (apply (getter_set _ "FOLLOWERS_FILE"); [simpl; tauto | exact Hne | exact HW]).
    rewrite (bind_ok _ _ r w w W) by reflexivity.
    cbv zeta.
    rewrite (bind_ok _ _ r w w pA) by (unfold cfg_get; rewrite Hp; reflexivity).
    rewrite (bind_ok _ _ r w w s) by (unfold read_file; rewrite Hs; reflexivity).
    cbv beta. rewrite (bind_ok _ _ r w w l) by exact Hl.
    rewrite (bind_ok _ _ r w w pA) by (unfold cfg_get; rewrite Hp; reflexivity).
    rewrite (bind_ok _ _ r w (with_files (<[pA := EmptyString]> (files w)) w) tt) by reflexivity.
    rewrite (bind_ok _ _ r _ w2 tt); [reflexivity|].
    rewrite write_ids_spec with (s := EmptyString) by (simpl; apply lookup_insert_eq).
    simpl. rewrite insert_insert_eq, with_files_files. reflexivity. }
  assert (Hfst : fst (auto_unfollow_nonfollowers_keep K r w) = fst (unfollow_loop K (py_diff F W) r w2)).
  { rewrite Hrun. unfold bind. destruct (unfollow_loop K (py_diff F W) r w2) as [w3 []]; reflexivity. }
  assert (Hfiles : files (fst (auto_unfollow_nonfollowers_keep K r w)) = <[pA := ids_text A]> (files w)).
  { rewrite Hfst. apply keeps_files_unfollow_loop. }
  assert (HA : List.NoDup A) by apply py_set_nodup.
  split; [exact Hfiles|]. split; [exact HA|]. split; [|split].
  - intros x. unfold A. rewrite py_set_In, in_app_iff, !py_set_In, py_diff_In. reflexivity.
  - rewrite <- (nodup_fixed_point Z.eq_dec HA). apply (read_id_file_text _ pA).
    + rewrite Hfst, cfg_pres_unfollow_loop. exact Hp.
    + rewrite Hfiles. apply lookup_insert_eq.
  - intros Hr. destruct (unfollow_loop_ok K (py_diff F W) r w2 Hc Hr) as (o & Ho).
    rewrite Hrun, (bind_ok _ _ r w2 _ tt Ho). split; reflexivity.
Qed.



(** ** Muting and unmuting *)

Lemma mutation_loop_ok (mk : Z -> Call) (pre : string) K l r w :
  conn w = true -> (forall u m, r (mk u) <> RErr m) ->
  exists o, mfor l (fun uid =>
      if negb (py_mem uid K) then
        do _ <- remote_call (mk uid);
        print (pre +:+ py_str uid)
      else ret tt) r w =
    (mkWorld (cfg w) (conn w) (files w)
       (calls w ++ map mk (List.filter (fun uid => negb (py_mem uid K)) l)) o, Ok tt).
Proof.
  intros Hc Hr. revert w Hc.
  induction l as [|x l IH]; intros w Hc; simpl.
  - exists (out w). rewrite app_nil_r. destruct w; reflexivity.
  - destruct (negb (py_mem x K)).
    + set (w1 := with_calls (calls w ++ [mk x])%list w).
      set (w2 := with_out (out w1 ++ [pre +:+ py_str x])%list w1).
      rewrite (bind_ok _ _ r w w2 tt).
      2:{ unfold bind, remote_call, print. rewrite Hc.
          destruct (r (mk x)) eqn:E; try reflexivity.
          exfalso. exact (Hr x _ E). }
      destruct (IH w2 Hc) as (o & Ho). exists o. refine (eq_trans Ho _). simpl.
      rewrite <- app_assoc. reflexivity.
    + rewrite (bind_ok _ _ r w w tt) by reflexivity.
      destruct (IH w Hc) as (o & Ho). exists o. exact Ho.
Qed.

(** [auto_mute_following] and [auto_unmute] with the keep-sets [K], on a
    set-up bot whose follows snapshot reads as [F] and whose remote lists
    [ids] as the muted users of the handle [h]: when no mute or unmute
    call fails, each run ends normally after the listing call; the first
    then sends one mute request for each identifier of [F] not in [ids]
    and not in [K], the second one unmute request for each distinct
    identifier of [ids] not in [K], and nothing else. *)
Theorem mute_unmute_exact K r w h F ids nc :
  cfg w !! "TWITTER_HANDLE" = Some h -> conn w = true ->
  read_id_file "FOLLOWS_FILE" r w = (w, Ok F) ->
  r (CIds EMutes h None) = RIds ids nc ->
  (forall u m, r (CMuteCreate u) <> RErr m) ->
  (forall u m, r (CMuteDestroy u) <> RErr m) ->
  (snd (auto_mute_following_keep K r w) = Ok VNone /\
   calls (fst (auto_mute_following_keep K r w)) =
     (calls w ++ CIds EMutes h None ::
      map CMuteCreate (List.filter (fun uid => negb (py_mem uid K)) (py_diff F (py_set ids))))%list) /\
  (snd (auto_unmute_keep K r w) = Ok VNone /\
   calls (fst (auto_unmute_keep K r w)) =
     (calls w ++ CIds EMutes h None ::
      map CMuteDestroy (List.filter (fun uid => negb (py_mem uid K)) (py_set ids)))%list).
Proof.
  intros Hh Hc HF Hr Hcr Hds.
  pose proof (cfg_nonempty w _ _ Hh) as Hne.
  set (w1 := with_calls (calls w ++ [CIds EMutes h None])%list w).
  assert (Hlist : remote_call (CIds EMutes h None) r w = (w1, Ok (RIds ids nc)))
    by (unfold remote_call; rewrite Hc, Hr; reflexivity).
  split.
  - unfold auto_mute_following_keep. rewrite when_set_up_ready by exact Hne.
    rewrite (bind_ok _ _ r w w (VSet F))
      by (apply (getter_set _ "FOLLOWS_FILE"); [simpl; tauto | exact Hne | exact HF]).
    rewrite (bind_ok _ _ r w w F) by reflexivity.
    rewrite (bind_ok _ _ r w w h) by (unfold cfg_get; rewrite Hh; reflexivity).
    rewrite (bind_ok _ _ r w w1 (RIds ids nc)) by exact Hlist.
    rewrite (bind_ok _ _ r w1 w1 ids) by reflexivity.
    cbv zeta.
    destruct (mutation_loop_ok CMuteCreate "muted " K (py_diff F (py_set ids)) r w1 Hc Hcr)
      as (o & Ho).
    rewrite (bind_ok _ _ r w1 _ tt Ho). simpl. rewrite <- app_assoc. split; reflexivity.
  - unfold auto_unmute_keep. rewrite when_set_up_ready by exact Hne.
    rewrite (bind_ok _ _ r w w h) by (unfold cfg_get; rewrite Hh; reflexivity).
    rewrite (bind_ok _ _ r w w1 (RIds ids nc)) by exact Hlist.
    rewrite (bind_ok _ _ r w1 w1 ids) by reflexivity.
    cbv zeta.
    destruct (mutation_loop_ok CMuteDestroy "unmuted " K (py_set ids) r w1 Hc Hds)
      as (o & Ho).
    rewrite (bind_ok _ _ r w1 _ tt Ho). simpl. rewrite <- app_assoc. split; reflexivity.
Qed.

Lemma mute_unmute_exact_witness :
  (snd (auto_mute_following_keep [3]%Z
          (fun c => match c with CIds EMutes _ _ => RIds [2; 5; 5]%Z 0 | _ => RDone end)
          (demo_world [] [] [1; 2; 3]%Z)) = Ok VNone /\
   calls (fst (auto_mute_following_keep [3]%Z
          (fun c => match c with CIds EMutes _ _ => RIds [2; 5; 5]%Z 0 | _ => RDone end)
          (demo_world [] [] [1; 2; 3]%Z))) =
     (calls (demo_world [] [] [1; 2; 3]%Z) ++ CIds EMutes "me" None ::
      map CMuteCreate (List.filter (fun uid => negb (py_mem uid [3]%Z))
                         (py_diff [1; 2; 3]%Z (py_set [2; 5; 5]%Z))))%list) /\
  (snd (auto_unmute_keep [3]%Z
          (fun c => match c with CIds EMutes _ _ => RIds [2; 5; 5]%Z 0 | _ => RDone end)
          (demo_world [] [] [1; 2; 3]%Z)) = Ok VNone /\
   calls (fst (auto_unmute_keep [3]%Z
          (fun c => match c with CIds EMutes _ _ => RIds [2; 5; 5]%Z 0 | _ => RDone end)
          (demo_world [] [] [1; 2; 3]%Z))) =
     (calls (demo_world [] [] [1; 2; 3]%Z) ++ CIds EMutes "me" None ::
      map CMuteDestroy (List.filter (fun uid => negb (py_mem uid [3]%Z)) (py_set [2; 5; 5]%Z)))%list).
Proof.
  apply (mute_unmute_exact [3]%Z _ (demo_world [] [] [1; 2; 3]%Z) "me" [1; 2; 3]%Z [2; 5; 5]%Z 0).
  - reflexivity.
  - reflexivity.
  - vm_compute. reflexivity.
  - reflexivity.
  - intros u m. discriminate.
  - intros u m. discriminate.
Defined.

(** ** Reading the configuration file *)

Lemma read_config_lines_good ls r w :
  Forall (fun l => config_entry l <> None) ls ->
  read_config_lines ls r w = (with_cfg (merge_config (cfg w) ls) w, Ok tt).
Proof.
  revert w. induction ls as [|l ls IH]; intros w Hall; simpl.
  - destruct w; reflexivity.
  - inversion Hall as [|? ? Hl Hls]; subst.
    unfold config_entry in Hl. unfold merge_config. simpl. unfold config_entry at 2.
    destruct (split_on ":" l) as [|p [|v rest]]; try (exfalso; apply Hl; reflexivity).
    rewrite (bind_ok _ _ r w (with_cfg (<[strip p := strip v]> (cfg w)) w) tt) by reflexivity.
    rewrite (IH _ Hls). destruct w; reflexivity.
Qed.

Lemma read_config_lines_app good bad rest r w :
  Forall (fun l => config_entry l <> None) good -> config_entry bad = None ->
  read_config_lines (good ++ bad :: rest) r w =
    (with_cfg (merge_config (cfg w) good) w, Exc IndexError).
Proof.
  revert w. induction good as [|l good IH]; intros w Hall Hbad; simpl.
  - unfold config_entry in Hbad.
    destruct (split_on ":" bad) as [|p [|v vs]]; [| |discriminate]; destruct w; reflexivity.
  - inversion Hall as [|? ? Hl Hls]; subst.
    unfold config_entry in Hl. unfold merge_config. simpl. unfold config_entry at 2.
    destruct (split_on ":" l) as [|p [|v vs]]; try (exfalso; apply Hl; reflexivity).
    rewrite (bind_ok _ _ r w (with_cfg (<[strip p := strip v]> (cfg w)) w) tt) by reflexivity.
    rewrite (IH _ Hls Hbad). destruct w; reflexivity.
Qed.

Lemma snoc_cases {A} (l : list A) : l = [] \/ exists l' x, l = (l' ++ [x])%list.
Proof. induction l as [|x l _] using rev_ind; [left; reflexivity | right; eauto]. Qed.

Lemma last_entry_step ls l k v (c : gmap string string) :
  option_map fst (config_entry l) <> Some k ->
  ((exists pre l0 post, ls = (pre ++ l0 :: post)%list /\ config_entry l0 = Some (k, v) /\
      Forall (fun l' => option_map fst (config_entry l') <> Some k) post) \/
   (Forall (fun l' => option_map fst (config_entry l') <> Some k) ls /\ c !! k = Some v)) <->
  ((exists pre l0 post, (ls ++ [l])%list = (pre ++ l0 :: post)%list /\ config_entry l0 = Some (k, v) /\
      Forall (fun l' => option_map fst (config_entry l') <> Some k) post) \/
   (Forall (fun l' => option_map fst (config_entry l') <> Some k) (ls ++ [l]) /\ c !! k = Some v)).
Proof.
  intros Hl. split.
  - intros [(pre & l0 & post & E & H0 & Hp)|(Hq & Hc)].
    + left. exists pre, l0, (post ++ [l])%list. split; [rewrite E, <- app_assoc; reflexivity|].
      split; [exact H0|]. apply Forall_app. split; [exact Hp | constructor; [exact Hl | constructor]].
    + right. split; [|exact Hc]. apply Forall_app. split; [exact Hq | constructor; [exact Hl | constructor]].
  - intros [(pre & l0 & post & E & H0 & Hp)|(Hq & Hc)].
    + destruct (snoc_cases post) as [->|(post' & x & ->)].
      * apply app_inj_tail in E as [_ <-]. exfalso. apply Hl. rewrite H0. reflexivity.
      * rewrite app_comm_cons, app_assoc in E. apply app_inj_tail in E as [E _].
        left. exists pre, l0, post'. split; [exact E|]. split; [exact H0|].
        apply Forall_app in Hp as [Hp _]. exact Hp.
    + right. split; [|exact Hc]. apply Forall_app in Hq as [Hq _]. exact Hq.
Qed.

Lemma merge_config_lookup ls c k v :
  merge_config c ls !! k = Some v <->
    (exists pre l post, ls = (pre ++ l :: post)%list /\ config_entry l = Some (k, v) /\
       Forall (fun l' => option_map fst (config_entry l') <> Some k) post) \/
    (Forall (fun l' => option_map fst (config_entry l') <> Some k) ls /\ c !! k = Some v).
Proof.
  induction ls as [|l ls IH] using rev_ind.
  - simpl. split.
    + intros H. right. split; [constructor | exact H].
    + intros [(pre & l & post & E & _)|(_ & H)]; [|exact H].
      destruct pre; discriminate E.
  - unfold merge_config in *. rewrite fold_left_app. simpl.
    destruct (config_entry l) as [[k' v']|] eqn:El.
    + destruct (String.eqb_spec k' k) as [->|Hne].
      * rewrite lookup_insert_eq. split.
        -- intros H. injection H as <-. left. exists ls, l, []. rewrite El.
           split; [reflexivity|]. split; [reflexivity | constructor].
        -- intros [(pre & l0 & post & E & Hl0 & Hpost)|(Hall & _)].
           ++ destruct (snoc_cases post) as [->|(post' & x & ->)].
              ** apply app_inj_tail in E as [_ <-]. rewrite El in Hl0.
                 injection Hl0 as ->. reflexivity.
              ** rewrite app_comm_cons, app_assoc in E. apply app_inj_tail in E as [_ <-].
                 apply Forall_app in Hpost as [_ Hx]. inversion Hx as [|? ? Hx' _].
                 exfalso. apply Hx'. rewrite El. reflexivity.
           ++ apply Forall_app in Hall as [_ Hx]. inversion Hx as [|? ? Hx' _].
              exfalso. apply Hx'. rewrite El. reflexivity.
      * rewrite lookup_insert_ne by (intros E; apply Hne; exact E).
        rewrite IH. apply (last_entry_step ls l k v); rewrite El; simpl; congruence.
    + rewrite IH. apply (last_entry_step ls l k v); rewrite El; simpl; congruence.
Qed.

Lemma split_on_none c s : contains (String c EmptyString) s = false -> split_on c s = [s].
Proof.
  induction s as [|a s IH]; intros H; [reflexivity|].
  simpl in H. apply orb_false_iff in H as [H1 H2]. rewrite andb_true_r in H1.
  simpl. rewrite Ascii.eqb_sym, H1, (IH H2). reflexivity.
Qed.

Lemma split_on_first c p s :
  contains (String c EmptyString) p = false -> split_on c (p +:+ String c s) = p :: split_on c s.
Proof.
  induction p as [|a p IH]; intros H; simpl.
  - rewrite Ascii.eqb_refl. reflexivity.
  - simpl in H. apply orb_false_iff in H as [H1 H2]. rewrite andb_true_r in H1.
    rewrite Ascii.eqb_sym, H1, (IH H2). reflexivity.
Qed.

(** Reading configuration lines that all hold a [':']: the run ends
    normally, only [BOT_CONFIG] changes, and a parameter ends with the
    value of the last line that names it (key and value stripped), or keeps
    its earlier value when no line names it. *)
Theorem config_lines_last_wins ls r w :
  Forall (fun l => config_entry l <> None) ls ->
  exists c, read_config_lines ls r w = (with_cfg c w, Ok tt) /\
    forall k v, c !! k = Some v <->
      (exists pre l post, ls = (pre ++ l :: post)%list /\ config_entry l = Some (k, v) /\
         Forall (fun l' => option_map fst (config_entry l') <> Some k) post) \/
      (Forall (fun l' => option_map fst (config_entry l') <> Some k) ls /\ cfg w !! k = Some v).
Proof.
  intros H. exists (merge_config (cfg w) ls). split.
  - apply read_config_lines_good, H.
  - intros k v. apply merge_config_lookup.
Qed.

Lemma config_lines_last_wins_witness :
  exists c, read_config_lines (file_lines ("A: 1" +:+ newline +:+ "B:2" +:+ newline +:+ " A :3" +:+ newline))
              (fun _ => RDone) (demo_world [] [] []) =
            (with_cfg c (demo_world [] [] []), Ok tt) /\
    forall k v, c !! k = Some v <->
      (exists pre l post,
         file_lines ("A: 1" +:+ newline +:+ "B:2" +:+ newline +:+ " A :3" +:+ newline) =
           (pre ++ l :: post)%list /\ config_entry l = Some (k, v) /\
         Forall (fun l' => option_map fst (config_entry l') <> Some k) post) \/
      (Forall (fun l' => option_map fst (config_entry l') <> Some k)
         (file_lines ("A: 1" +:+ newline +:+ "B:2" +:+ newline +:+ " A :3" +:+ newline)) /\
       cfg (demo_world [] [] []) !! k = Some v).
Proof.
  apply config_lines_last_wins. vm_compute. repeat constructor; discriminate.
Defined.

(** A configuration line is split at every [':'] and only the first two
    parts are used: a value that itself holds a [':'] (a URL, say) is cut
    at it, and the text after it is dropped without an error. *)
Theorem config_value_cut_at_colon p v1 v2 r w :
  contains ":" p = false -> contains ":" v1 = false ->
  read_config_lines [p +:+ String ":" (v1 +:+ String ":" v2)] r w =
    (with_cfg (<[strip p := strip v1]> (cfg w)) w, Ok tt).
Proof.
  intros Hp Hv. rewrite read_config_lines_good.
  - unfold merge_config, config_entry. simpl.
    rewrite (split_on_first _ _ _ Hp), (split_on_first _ _ _ Hv). reflexivity.
  - constructor; [|constructor]. unfold config_entry.
    rewrite (split_on_first _ _ _ Hp), (split_on_first _ _ _ Hv). discriminate.
Qed.

Lemma config_value_cut_at_colon_witness :
  read_config_lines ["URL" +:+ String ":" (" http" +:+ String ":" ("//example.com" +:+ newline))]
    (fun _ => RDone) (demo_world [] [] []) =
  (with_cfg (<[strip "URL" := strip " http"]> (cfg (demo_world [] [] []))) (demo_world [] [] []), Ok tt).
Proof. apply config_value_cut_at_colon; reflexivity. Defined.

(** A configuration line without a [':'] (a blank line included) makes
    [bot_setup] raise [IndexError]: the parameters of the lines before it
    are already stored in [BOT_CONFIG], the lines after it are not read,
    nothing is checked, no file is created and the connection is not
    touched. *)
Theorem setup_line_without_colon cf s good bad rest r w :
  files w !! cf = Some s -> file_lines s = (good ++ bad :: rest)%list ->
  Forall (fun l => config_entry l <> None) good -> contains ":" bad = false ->
  bot_setup cf r w = (fst (read_config_lines good r w), Exc IndexError) /\
  fst (read_config_lines good r w) = with_cfg (merge_config (cfg w) good) w.
Proof.
  intros Hf Hl Hg Hb.
  assert (Hbad : config_entry bad = None).
  { unfold config_entry. rewrite (split_on_none _ _ Hb). reflexivity. }
  rewrite (read_config_lines_good _ _ _ Hg). split; [|reflexivity].
  unfold bot_setup.
  rewrite (bind_ok _ _ r w w s) by (unfold read_file; rewrite Hf; reflexivity).
  rewrite Hl. apply bind_exc, read_config_lines_app; assumption.
Qed.

Lemma setup_line_without_colon_witness :
  bot_setup "config.txt" (fun _ => RDone)
    (with_files (<["config.txt" := "OAUTH_TOKEN: t" +:+ newline +:+ newline +:+ "OAUTH_SECRET: s"]>
                   (files (demo_world [] [] []))) (demo_world [] [] [])) =
    (fst (read_config_lines ["OAUTH_TOKEN: t" +:+ newline] (fun _ => RDone)
            (with_files (<["config.txt" := "OAUTH_TOKEN: t" +:+ newline +:+ newline +:+ "OAUTH_SECRET: s"]>
                           (files (demo_world [] [] []))) (demo_world [] [] []))), Exc IndexError) /\
  fst (read_config_lines ["OAUTH_TOKEN: t" +:+ newline] (fun _ => RDone)
         (with_files (<["config.txt" := "OAUTH_TOKEN: t" +:+ newline +:+ newline +:+ "OAUTH_SECRET: s"]>
                        (files (demo_world [] [] []))) (demo_world [] [] []))) =
    with_cfg (merge_config (cfg (with_files (<["config.txt" := "OAUTH_TOKEN: t" +:+ newline +:+ newline +:+ "OAUTH_SECRET: s"]>
                                              (files (demo_world [] [] []))) (demo_world [] [] [])))
                ["OAUTH_TOKEN: t" +:+ newline])
      (with_files (<["config.txt" := "OAUTH_TOKEN: t" +:+ newline +:+ newline +:+ "OAUTH_SECRET: s"]>
                     (files (demo_world [] [] []))) (demo_world [] [] [])).
Proof.
  apply (setup_line_without_colon "config.txt" ("OAUTH_TOKEN: t" +:+ newline +:+ newline +:+ "OAUTH_SECRET: s")
           ["OAUTH_TOKEN: t" +:+ newline] newline ["OAUTH_SECRET: s"]).
  - vm_compute. reflexivity.
  - vm_compute. reflexivity.
  - vm_compute. repeat constructor; discriminate.
  - reflexivity.
Defined.

(** ** The effects of [bot_setup] *)

Lemma read_config_lines_ok ls r w w1 :
  read_config_lines ls r w = (w1, Ok tt) -> w1 = with_cfg (merge_config (cfg w) ls) w.
Proof.
  revert w. induction ls as [|l ls IH]; intros w H; simpl in H.
  - injection H as <-. destruct w; reflexivity.
  - destruct (split_on ":" l) as [|p [|v vs]] eqn:E; try discriminate H.
    rewrite (bind_ok _ _ r w (with_cfg (<[strip p := strip v]> (cfg w)) w) tt) in H by reflexivity.
    apply IH in H. rewrite H.
    assert (Hl : config_entry l = Some (strip p, strip v)) by (unfold config_entry; rewrite E; reflexivity).
    unfold merge_config. simpl. rewrite Hl. destruct w; reflexivity.
Qed.

Lemma ensure_step k p r w :
  cfg w !! k = Some p ->
  (do sync_file <- cfg_get k;
   do b <- isfile sync_file;
   if b then ret tt else (do _ <- open_wb sync_file; fwrite sync_file "")) r w =
  (with_files (<[p := default EmptyString (files w !! p)]> (files w)) w, Ok tt).
Proof.
  intros Hk. unfold bind at 1, cfg_get. rewrite Hk. cbv beta iota.
  unfold bind, isfile. destruct (files w !! p) as [s|] eqn:E; simpl.
  - rewrite insert_id by exact E. destruct w; reflexivity.
  - unfold open_wb, fwrite. simpl. rewrite lookup_insert_eq. simpl.
    rewrite insert_insert_eq. reflexivity.
Qed.

Lemma ensure_loop ks r w :
  Forall (fun k => exists p, cfg w !! k = Some p) ks ->
  exists f, mfor ks (fun k =>
      do sync_file <- cfg_get k;
      do b <- isfile sync_file;
      if b then ret tt else (do _ <- open_wb sync_file; fwrite sync_file "")) r w =
    (with_files f w, Ok tt) /\
    (forall q, (exists k, In k ks /\ cfg w !! k = Some q) ->
       f !! q = Some (default EmptyString (files w !! q))) /\
    (forall q, (forall k, In k ks -> cfg w !! k <> Some q) -> f !! q = files w !! q).
Proof.
  revert w. induction ks as [|k ks IH]; intros w Hall.
  - exists (files w). split; [destruct w; reflexivity|]. split.
    + intros q (k & [] & _).
    + intros q _. reflexivity.
  - inversion Hall as [|? ? (p & Hp) Hks]; subst.
    set (w' := with_files (<[p := default EmptyString (files w !! p)]> (files w)) w).
    destruct (IH w' Hks) as (f & Hrun & Hin & Hout).
    exists f. simpl. rewrite (bind_ok _ _ r w w' tt) by (apply ensure_step, Hp).
    split; [refine (eq_trans Hrun _); destruct w; reflexivity|].
    assert (Hw' : forall q, files w' !! q = if String.eqb q p then Some (default EmptyString (files w !! q))
                                            else files w !! q).
    { intros q. simpl. destruct (String.eqb_spec q p) as [->|Hne].
      - apply lookup_insert_eq.
      - rewrite lookup_insert_ne by congruence. reflexivity. }
    split.
    + intros q (k0 & Hk0 & Hq).
      destruct (decide (Exists (fun k => cfg w !! k = Some q) ks)) as [Hex|Hnex].
      * apply List.Exists_exists in Hex as (k1 & Hk1 & Hq1).
        rewrite (Hin q (ex_intro _ k1 (conj Hk1 Hq1))), Hw'.
        destruct (String.eqb q p); reflexivity.
      * rewrite Hout.
        -- rewrite Hw'. destruct (String.eqb_spec q p) as [->|Hne]; [reflexivity|].
           exfalso. destruct Hk0 as [<-|Hk0]; [congruence|].
           apply Hnex, List.Exists_exists. exists k0. split; assumption.
        -- intros k1 Hk1 Hq1. apply Hnex, List.Exists_exists. exists k1. split; assumption.
    + intros q Hq. rewrite Hout.
      * rewrite Hw'. destruct (String.eqb_spec q p) as [->|Hne]; [|reflexivity].
        exfalso. apply (Hq k); [left; reflexivity | exact Hp].
      * intros k1 Hk1. apply Hq. right. exact Hk1.
Qed.

Lemma bot_setup_run cf s r w w1 :
  files w !! cf = Some s ->
  read_config_lines (file_lines s) r w = (w1, Ok tt) ->
  (List.filter (param_missing (cfg w1)) required_parameters <> [] ->
   exists msg, bot_setup cf r w =
     (mkWorld ∅ (conn w) (files w) (calls w)
        (out w ++ map (fun k => "Missing config parameter: " +:+ k)
                    (List.filter (param_missing (cfg w1)) required_parameters) ++ [msg]),
      Ok tt)) /\
  (List.filter (param_missing (cfg w1)) required_parameters = [] ->
   exists w', bot_setup cf r w = (w', Ok tt) /\
     cfg w' = cfg w1 /\ conn w' = true /\ calls w' = calls w /\ out w' = out w /\
     (forall k q, In k ["ALREADY_FOLLOWED_FILE"; "FOLLOWS_FILE"; "FOLLOWERS_FILE"] ->
        cfg w1 !! k = Some q -> files w' !! q = Some (default EmptyString (files w !! q))) /\
     (forall q, (forall k, In k ["ALREADY_FOLLOWED_FILE"; "FOLLOWS_FILE"; "FOLLOWERS_FILE"] ->
                  cfg w1 !! k <> Some q) -> files w' !! q = files w !! q)).
Proof.
  intros Hf Hr.
  pose proof (read_config_lines_ok _ _ _ _ Hr) as Hw1.
  set (missing := List.filter (param_missing (cfg w1)) required_parameters).
  set (w2 := with_out (out w1 ++ map (fun k => "Missing config parameter: " +:+ k) missing) w1).
  assert (Hrun : bot_setup cf r w =
    (if negb (bool_decide (missing = [])) then
       do _ <- print ("Please edit " +:+ cf +:+ " to include the parameters listed above and run bot_setup() again.");
       set_cfg ∅
     else
       do _ <- mfor ["ALREADY_FOLLOWED_FILE"; "FOLLOWS_FILE"; "FOLLOWERS_FILE"] (fun k =>
         do sync_file <- cfg_get k;
         do b <- isfile sync_file;
         if b then ret tt else (do _ <- open_wb sync_file; fwrite sync_file ""));
       set_conn true) r w2).
  { unfold bot_setup.
    rewrite (bind_ok _ _ r w w s) by (unfold read_file; rewrite Hf; reflexivity).
    rewrite (bind_ok _ _ r w w1 tt) by exact Hr.
    rewrite (bind_ok _ _ r w1 w1 (cfg w1)) by reflexivity.
    rewrite (bind_ok _ _ r w1 w2 tt) by apply mfor_print. reflexivity. }
  split.
  - intros Hm. rewrite Hrun, bool_decide_false by exact Hm.
    eexists. unfold bind, print, set_cfg. simpl. subst w1. simpl. rewrite <- app_assoc. reflexivity.
  - intros Hm. rewrite Hrun, bool_decide_true by exact Hm. simpl.
    pose proof (filter_nil_forall _ Hm) as Hall.
    assert (Hks : Forall (fun k => exists p, cfg w2 !! k = Some p)
                    ["ALREADY_FOLLOWED_FILE"; "FOLLOWS_FILE"; "FOLLOWERS_FILE"]).
    { apply List.Forall_forall. intros k Hk.
      assert (Hreq : In k required_parameters) by (simpl in Hk |- *; tauto).
      rewrite List.Forall_forall in Hall. specialize (Hall k Hreq).
      unfold param_missing in Hall. simpl. destruct (cfg w1 !! k) as [p|]; [eauto | discriminate]. }
    destruct (ensure_loop _ r w2 Hks) as (f & Hloop & Hin & Hout).
    rewrite (bind_ok _ _ r w2 _ tt Hloop).
    assert (Hfw : files w2 = files w) by (subst w2 w1; reflexivity).
    eexists. split; [reflexivity|]. simpl.
    split; [reflexivity|]. split; [reflexivity|].
    split; [subst w2 w1; reflexivity|].
    split; [subst missing w2 w1; rewrite Hm; simpl; apply app_nil_r|].
    split.
    + intros k q Hk Hq. rewrite Hin, Hfw; [reflexivity|]. exists k. split; assumption.
    + intros q Hq. rewrite Hout, Hfw; [reflexivity|]. exact Hq.
Qed.



(** ** Constructing the bot *)

(** A new [TwitterBot(config_file)]: when [config_file] does not exist the
    constructor raises [IOError] with the bot unconfigured and not
    connected; when the constructor returns, it has made no remote call,
    and the bot is either unconfigured and not connected, or ready (every
    required parameter set and non-empty) and connected. *)
Theorem init_ready_or_unconfigured cf r w :
  (files w !! cf = None ->
   bot_init cf r w = (with_conn false (with_cfg ∅ w), Exc (IOError cf))) /\
  (snd (bot_init cf r w) = Ok tt ->
   calls (fst (bot_init cf r w)) = calls w /\
   ((unconfigured (fst (bot_init cf r w)) /\ conn (fst (bot_init cf r w)) = false) \/
    (ready (fst (bot_init cf r w)) /\ conn (fst (bot_init cf r w)) = true))).
Proof.
  set (w0 := with_conn false (with_cfg ∅ w)).
  assert (Hinit : bot_init cf r w = bot_setup cf r w0).
  { unfold bot_init. rewrite (bind_ok _ _ r w (with_cfg ∅ w) tt) by reflexivity.
    rewrite (bind_ok _ _ r (with_cfg ∅ w) w0 tt) by reflexivity. reflexivity. }
  rewrite Hinit. split.
  - intros Hf. unfold bot_setup. apply bind_exc. unfold read_file. simpl. rewrite Hf. reflexivity.
  - destruct (files w0 !! cf) as [s|] eqn:Hf.
    2:{ unfold bot_setup. rewrite (bind_exc _ _ r w0 w0 (IOError cf))
          by (unfold read_file; rewrite Hf; reflexivity). discriminate. }
    destruct (read_config_lines (file_lines s) r w0) as [w1 [[]|e]] eqn:Hr.
    2:{ unfold bot_setup. rewrite (bind_ok _ _ r w0 w0 s) by (unfold read_file; rewrite Hf; reflexivity).
        rewrite (bind_exc _ _ r w0 w1 e) by exact Hr. discriminate. }
    intros _. destruct (bot_setup_run cf s r w0 w1 Hf Hr) as [Hmiss Hfull].
    destruct (bool_decide (List.filter (param_missing (cfg w1)) required_parameters = []))
      eqn:Hd.
    + apply bool_decide_eq_true in Hd.
      destruct (Hfull Hd) as (w' & Hrun & Hc & Hconn & Hcalls & _).
      rewrite Hrun. simpl. split; [exact Hcalls|]. right. split; [|exact Hconn].
      unfold ready. rewrite Hc. apply filter_nil_forall, Hd.
    + apply bool_decide_eq_false in Hd.
      destruct (Hmiss Hd) as (msg & Hrun). rewrite Hrun. simpl.
      split; [reflexivity|]. left. split; reflexivity.
Qed.

(** ** What [sync_follows] touches *)

Section Confined.
Context (touch : gmap string string -> string -> Prop) (allowed : gmap string string -> Call -> Prop).

Lemma confined_same {A} pre (m : M A) :
  (forall r w, pre (cfg w) -> cfg (fst (m r w)) = cfg w /\ files (fst (m r w)) = files w /\
                                calls (fst (m r w)) = calls w) ->
  confined pre touch allowed m.
Proof.
  intros H r w Hp. destruct (H r w Hp) as (Hc & Hf & Hl). split; [exact Hc|]. split.
  - intros q _. rewrite Hf. reflexivity.
  - exists []. split; [rewrite Hl, app_nil_r; reflexivity | constructor].
Qed.

Lemma confined_ret {A} pre (a : A) : confined pre touch allowed (ret a).
Proof. apply confined_same. intros r w _. repeat split. Qed.

Lemma confined_raise {A} pre e : confined pre touch allowed (@raise A e).
Proof. apply confined_same. intros r w _. repeat split. Qed.

Lemma confined_print pre s : confined pre touch allowed (print s).
Proof. apply confined_same. intros r w _. repeat split. Qed.

Lemma confined_get_cfg pre : confined pre touch allowed get_cfg.
Proof. apply confined_same. intros r w _. repeat split. Qed.

Lemma confined_weaken {A} (pre pre' : gmap string string -> Prop) (m : M A) :
  (forall C, pre' C -> pre C) -> confined pre touch allowed m -> confined pre' touch allowed m.
Proof. intros Hw Hm r w Hp. apply Hm, Hw, Hp. Qed.

Lemma confined_bind {A B} pre (m : M A) (k : A -> M B) :
  confined pre touch allowed m -> (forall a, confined pre touch allowed (k a)) ->
  confined pre touch allowed (bind m k).
Proof.
  intros Hm Hk r w Hp. destruct (Hm r w Hp) as (Hc & Hf & l & Hl & Hal).
  unfold bind. destruct (m r w) as [w' [a|e]]; simpl in *.
  - assert (Hp' : pre (cfg w')) by (rewrite Hc; exact Hp).
    destruct (Hk a r w' Hp') as (Hc' & Hf' & l' & Hl' & Hal'). rewrite Hc in *.
    split; [exact Hc'|]. split.
    + intros q Hq. rewrite Hf', Hf by exact Hq. reflexivity.
    + exists (l ++ l')%list. split; [rewrite Hl', Hl, app_assoc; reflexivity|].
      apply Forall_app. split; assumption.
  - split; [exact Hc|]. split; [exact Hf|]. exists l. split; assumption.
Qed.

Lemma confined_cfg_get_bind {B} pre key (k : string -> M B) :
  (forall v, confined (fun C => pre C /\ C !! key = Some v) touch allowed (k v)) ->
  confined pre touch allowed (bind (cfg_get key) k).
Proof.
  intros Hk r w Hp. unfold bind, cfg_get. destruct (cfg w !! key) as [v|] eqn:E.
  - apply Hk. split; assumption.
  - simpl. split; [reflexivity|]. split; [reflexivity|].
    exists []. split; [rewrite app_nil_r; reflexivity | constructor].
Qed.

Lemma confined_mfor {A} pre (l : list A) body :
  (forall x, confined pre touch allowed (body x)) -> confined pre touch allowed (mfor l body).
Proof.
  intros Hb. induction l as [|x l IH]; simpl; [apply confined_ret|].
  apply confined_bind; [apply Hb | intros; exact IH].
Qed.

End Confined.

Lemma confined_file_op pre p (g : option string -> string) :
  (forall C, pre C -> snapshot_path C p) ->
  confined pre snapshot_path listing_call
    (fun (_ : Remote) w => (with_files (<[p := g (files w !! p)]> (files w)) w, Ok tt)).
Proof.
  intros Hpre r w Hp. simpl. split; [reflexivity|]. split.
  - intros q Hq. apply lookup_insert_ne. intros ->. apply Hq, Hpre, Hp.
  - exists []. split; [rewrite app_nil_r; reflexivity | constructor].
Qed.

Lemma confined_open_wb pre p :
  (forall C, pre C -> snapshot_path C p) -> confined pre snapshot_path listing_call (open_wb p).
Proof. intros H. apply (confined_file_op pre p (fun _ => EmptyString) H). Qed.

Lemma confined_open_ab pre p :
  (forall C, pre C -> snapshot_path C p) -> confined pre snapshot_path listing_call (open_ab p).
Proof. intros H. apply (confined_file_op pre p (fun o => default EmptyString o) H). Qed.

Lemma confined_fwrite pre p s :
  (forall C, pre C -> snapshot_path C p) -> confined pre snapshot_path listing_call (fwrite p s).
Proof. intros H. apply (confined_file_op pre p (fun o => default EmptyString o +:+ s) H). Qed.

Lemma confined_list_ids pre ep h cur :
  (forall C, pre C -> C !! "TWITTER_HANDLE" = Some h) -> ep = EFollowers \/ ep = EFriends ->
  confined pre snapshot_path listing_call (list_ids ep h cur).
Proof.
  intros Hh Hep. unfold list_ids. apply confined_bind.
  - intros r w Hp. unfold remote_call.
    assert (Hc : Forall (listing_call (cfg w)) [CIds ep h cur]).
    { constructor; [|constructor]. exists ep, h, cur. split; [reflexivity|].
      split; [apply Hh, Hp | exact Hep]. }
    destruct (conn w); [destruct (r (CIds ep h cur))|]; simpl;
      (split; [reflexivity|]; split; [reflexivity|]);
      first [exists [CIds ep h cur]; split; [reflexivity | exact Hc]
            | exists []; split; [rewrite app_nil_r; reflexivity | constructor]].
  - intros resp. destruct resp; first [apply confined_ret | apply confined_raise].
Qed.

Lemma snapshot_key_path key p C :
  key = "FOLLOWERS_FILE" \/ key = "FOLLOWS_FILE" -> C !! key = Some p -> snapshot_path C p.
Proof. intros [->| ->] H; [left | right]; exact H. Qed.

Lemma confined_sync_pages ep key fuel c :
  ep = EFollowers \/ ep = EFriends -> key = "FOLLOWERS_FILE" \/ key = "FOLLOWS_FILE" ->
  confined (fun _ => True) snapshot_path listing_call (sync_pages ep key fuel c).
Proof.
  intros Hep Hkey. revert c. induction fuel as [|fuel IH]; intros c; simpl.
  - destruct (Z.eqb c 0); [apply confined_ret | apply confined_raise].
  - destruct (Z.eqb c 0); [apply confined_ret|].
    apply confined_cfg_get_bind. intros h.
    apply confined_bind; [apply confined_list_ids; [intros C [_ H]; exact H | exact Hep]|].
    intros [ids nc]. apply confined_cfg_get_bind. intros p.
    assert (Hp : forall C, ((True /\ C !! "TWITTER_HANDLE" = Some h) /\ C !! key = Some p) ->
                           snapshot_path C p)
      by (intros C [_ H]; apply (snapshot_key_path key); assumption).
    apply confined_bind; [apply confined_open_ab, Hp|]. intros _.
    apply confined_bind; [apply confined_mfor; intros x; apply confined_fwrite, Hp|]. intros _.
    apply confined_weaken with (pre := fun _ => True); [tauto | apply IH].
Qed.

Lemma confined_sync_role ep key fuel :
  ep = EFollowers \/ ep = EFriends -> key = "FOLLOWERS_FILE" \/ key = "FOLLOWS_FILE" ->
  confined (fun _ => True) snapshot_path listing_call (sync_role ep key fuel).
Proof.
  intros Hep Hkey. unfold sync_role. apply confined_cfg_get_bind. intros h.
  apply confined_bind; [apply confined_list_ids; [intros C [_ H]; exact H | exact Hep]|].
  intros [ids nc]. apply confined_bind.
  - unfold replace_ids. apply confined_cfg_get_bind. intros p.
    assert (Hp : forall C, ((True /\ C !! "TWITTER_HANDLE" = Some h) /\ C !! key = Some p) ->
                           snapshot_path C p)
      by (intros C [_ H]; apply (snapshot_key_path key); assumption).
    apply confined_bind; [apply confined_open_wb, Hp|]. intros _.
    apply confined_mfor. intros x. apply confined_fwrite, Hp.
  - intros _. apply confined_weaken with (pre := fun _ => True); [tauto | apply confined_sync_pages; assumption].
Qed.

(** [sync_follows], whatever the remote answers and however it ends,
    changes no file but the two configured snapshot files
    ([FOLLOWERS_FILE] and [FOLLOWS_FILE]) and makes no remote call but
    followers and friends listings for the configured [TWITTER_HANDLE]:
    it never follows, unfollows, mutes, favorites or retweets. *)
Theorem sync_touches_only_snapshots fuel r w :
  (forall q, cfg w !! "FOLLOWERS_FILE" <> Some q -> cfg w !! "FOLLOWS_FILE" <> Some q ->
     files (fst (sync_follows fuel r w)) !! q = files w !! q) /\
  exists l, calls (fst (sync_follows fuel r w)) = (calls w ++ l)%list /\
    Forall (fun c => exists ep h cur, c = CIds ep h cur /\ cfg w !! "TWITTER_HANDLE" = Some h /\
                       (ep = EFollowers \/ ep = EFriends)) l.
Proof.
  assert (H : confined (fun _ => True) snapshot_path listing_call (sync_follows fuel)).
  { unfold sync_follows, when_set_up. apply confined_bind; [apply confined_get_cfg|]. intros c.
    destruct (bool_decide (c = ∅)).
    - apply confined_bind; [apply confined_print | intros; apply confined_ret].
    - apply confined_bind; [apply confined_sync_role; [left | left]; reflexivity|]. intros _.
      apply confined_bind; [apply confined_sync_role; [right | right]; reflexivity|]. intros _.
      apply confined_ret. }
  destruct (H r w I) as (_ & Hf & l & Hl & Hal). split.
  - intros q H1 H2. apply Hf. intros [E|E]; [apply H1 | apply H2]; exact E.
  - exists l. split; [exact Hl | exact Hal].
Qed.

(** ** The already-followed ledger across operations *)

Lemma keeps_conn_prims :
  keeps conn get_cfg /\ (forall k, keeps conn (cfg_get k)) /\ (forall s, keeps conn (print s)) /\
  (forall c, keeps conn (remote_call c)) /\ (forall p, keeps conn (read_file p)) /\
  (forall p, keeps conn (open_wb p)) /\ (forall p s, keeps conn (fwrite p s)).
Proof.
  repeat split; intros; intros r w; try reflexivity.
  - unfold cfg_get. destruct (cfg w !! k); reflexivity.
  - unfold remote_call. destruct (conn w) eqn:E; [destruct (r c)|]; simpl; auto.
  - unfold read_file. destruct (files w !! p); reflexivity.
Qed.

#[local] Hint Extern 1 (keeps conn _) => apply keeps_conn_prims : keepdb.

Lemma keeps_conn_parse_lines ls : keeps conn (parse_lines ls).
Proof. induction ls as [|l ls IH]; simpl; keep_walk. Qed.

#[local] Hint Resolve keeps_conn_parse_lines : keepdb.

Lemma keeps_conn_unfollow_keep K : keeps conn (auto_unfollow_nonfollowers_keep K).
Proof.
  unfold auto_unfollow_nonfollowers_keep, get_follows_list, get_followers_list, read_id_file,
    as_set, write_ids, unfollow_loop.
  keep_walk.
Qed.

Lemma cfg_pres_unfollow_keep K : cfg_pres (auto_unfollow_nonfollowers_keep K).
Proof. unfold auto_unfollow_nonfollowers_keep. cfg_walk. Qed.

Lemma parse_lines_snd ls r r' w w' : snd (parse_lines ls r w) = snd (parse_lines ls r' w').
Proof.
  induction ls as [|l ls IH]; simpl; [reflexivity|].
  destruct (py_int l); [|reflexivity]. unfold bind.
  rewrite (parse_lines_world ls r w), (parse_lines_world ls r' w'), IH. simpl.
  destruct (snd (parse_lines ls r' w')); reflexivity.
Qed.

Lemma read_id_file_path k p r r' w w' L :
  cfg w' = cfg w -> cfg w !! k = Some p -> files w' !! p = files w !! p ->
  read_id_file k r w = (w, Ok L) -> read_id_file k r' w' = (w', Ok L).
Proof.
  intros Hc Hk Hp H.
  destruct (read_id_file_inv _ _ _ _ _ H) as (p0 & s & l & Hk0 & Hs & Hl & <- & _).
  rewrite Hk in Hk0. injection Hk0 as <-.
  unfold read_id_file, bind, cfg_get. rewrite Hc, Hk. cbv beta iota.
  unfold read_file. rewrite Hp, Hs. cbv beta iota.
  rewrite parse_lines_world, (parse_lines_snd _ r' r w' w), Hl. reflexivity.
Qed.

(** The already-followed ledger at work: after [auto_unfollow_nonfollowers]
    (with any keep-set, and whether or not its destroy calls fail), a run
    of [auto_follow_followers_of_user] sends no follow request for any
    account the unfollow run dropped from the follows (in [F], not in [W])
    or that was already in the ledger [L], as long as the ledger and the
    follows snapshot are different files. *)
Theorem unfollowed_not_refollowed K r w pA pF F W L u count r' ids nc :
  cfg w !! "ALREADY_FOLLOWED_FILE" = Some pA -> cfg w !! "FOLLOWS_FILE" = Some pF -> pA <> pF ->
  conn w = true ->
  read_id_file "FOLLOWS_FILE" r w = (w, Ok F) ->
  read_id_file "FOLLOWERS_FILE" r w = (w, Ok W) ->
  read_id_file "ALREADY_FOLLOWED_FILE" r w = (w, Ok L) ->
  r' (CIds EFollowers u None) = RIds ids nc ->
  exists l,
    calls (fst (auto_follow_followers_of_user u count r' (fst (auto_unfollow_nonfollowers_keep K r w)))) =
      (calls (fst (auto_unfollow_nonfollowers_keep K r w)) ++ l)%list /\
    forall x, (In x F /\ ~ In x W) \/ In x L -> ~ In (CFriendCreate x) l.
Proof.
  intros HpA HpF Hne Hc HF HW HL Hr'.
  destruct (unfollow_run K r w pA F W L HpA Hc HF HW HL) as (Hfiles & _ & HAin & Hread & _).
  set (w' := fst (auto_unfollow_nonfollowers_keep K r w)) in *.
  set (A := py_set (py_set (py_diff F W) ++ L)) in *.
  assert (Hcfg : cfg w' = cfg w) by apply cfg_pres_unfollow_keep.
  assert (Hconn : conn w' = conn w) by apply keeps_conn_unfollow_keep.
  assert (HF' : read_id_file "FOLLOWS_FILE" r' w' = (w', Ok F)).
  { apply (read_id_file_path _ pF r r' w w'); [exact Hcfg | exact HpF | | exact HF].
    rewrite Hfiles. apply lookup_insert_ne. exact Hne. }
  assert (HA' : read_id_file "ALREADY_FOLLOWED_FILE" r' w' = (w', Ok A)).
  { apply (read_id_file_path _ pA r r' w' w'); [reflexivity | rewrite Hcfg; exact HpA | reflexivity | exact Hread]. }
  assert (Hne' : cfg w' <> ∅) by (rewrite Hcfg; exact (cfg_nonempty w _ _ HpA)).
  destruct (followers_of_user_run u count r' w' F A ids nc Hne' ltac:(rewrite Hconn; exact Hc) HF' HA' Hr')
    as (us & w'' & Hrun & _ & Hcalls & _ & Hus & _).
  exists (CIds EFollowers u None :: map CFriendCreate us). rewrite Hrun. split; [exact Hcalls|].
  intros x Hx [E|Hin]; [discriminate E|].
  apply in_map_iff in Hin as (y & Ey & Hy). injection Ey as ->.
  apply Hus in Hy as (_ & _ & HnA). apply HnA, HAin, Hx.
Qed.

Lemma unfollowed_not_refollowed_witness :
  exists l,
    calls (fst (auto_follow_followers_of_user "carol" 10
                  (fun c => match c with CIds EFollowers _ None => RIds [1; 3; 7]%Z 0 | _ => RDone end)
                  (fst (auto_unfollow_nonfollowers_keep [] (fun _ => RDone)
                          (demo_world [5]%Z [2]%Z [1; 2; 3]%Z))))) =
      (calls (fst (auto_unfollow_nonfollowers_keep [] (fun _ => RDone)
                     (demo_world [5]%Z [2]%Z [1; 2; 3]%Z))) ++ l)%list /\
    forall x, (In x [1; 2; 3]%Z /\ ~ In x [2]%Z) \/ In x [5]%Z -> ~ In (CFriendCreate x) l.
Proof.
  apply (unfollowed_not_refollowed [] (fun _ => RDone) (demo_world [5]%Z [2]%Z [1; 2; 3]%Z)
           "already_followed.txt" "follows.txt" [1; 2; 3]%Z [2]%Z [5]%Z "carol" 10 _ [1; 3; 7]%Z 0).
  - reflexivity.
  - reflexivity.
  - discriminate.
  - reflexivity.
  - vm_compute. reflexivity.
  - vm_compute. reflexivity.
  - vm_compute. reflexivity.
  - reflexivity.
Defined.
